(** * tp-dashboard: the briefing renderer

    A shallow embedding of the markdown-subset renderer of the dashboard
    page: the section classifier [parseSections], the inline formatter
    [formatBullets] with [highlightNumbers], and the action-item toggle.

    The repository holds three successive revisions of the same component;
    each gets a module named after its file:
    - [Part001]: src/unnamed/part_001 (earliest; split on the heading marker,
      every part with a body is kept),
    - [Page]: src/app/page.tsx (split on the heading marker, only
      classified parts are kept),
    - [Part000]: src/unnamed/part_000 (line by line, three heading levels).

    JavaScript strings are sequences of UTF-16 code units, and the regular
    expressions of the source carry no [u] flag, so they work on code units
    too: a string is a [list N]. *)

From Stdlib Require Import List NArith ZArith Bool Ascii String Arith Lia.
From Stdlib Require Import DecimalString DecimalPos DecimalZ Permutation Sorted.
Import ListNotations.

Set Implicit Arguments.

(* ================================================================== *)
(** * Part I: definitions *)
(* ================================================================== *)

Definition char := N.
Definition jsstring := list char.

(** An ASCII literal as a JavaScript string. *)
Definition js (s : string) : jsstring :=
  map N_of_ascii (list_ascii_of_string s).

Definition ch (a : ascii) : char := N_of_ascii a.

(** The double quote, U+0022. *)
Definition DQ : char := 34%N.

(** ** The runtime: String.prototype and Array.prototype methods *)

Module JS.

(** [a === b] on strings: the same code units. *)
Definition eqb (a b : jsstring) : bool :=
  if list_eq_dec N.eq_dec a b then true else false.

(** A string is truthy when it is not empty. *)
Definition truthy (s : jsstring) : bool :=
  match s with [] => false | _ :: _ => true end.

Definition oneOf (cs : list char) (c : char) : bool := existsb (N.eqb c) cs.

Definition between (lo hi c : char) : bool := (lo <=? c)%N && (c <=? hi)%N.

(** LineTerminator: LF, CR, LS, PS. *)
Definition isLineTerminator (c : char) : bool :=
  oneOf [10; 13; 0x2028; 0x2029]%N c.

(** WhiteSpace and LineTerminator: what [\s] matches and what [trim]
    removes (TAB, LF, VT, FF, CR, SP, NBSP, the Zs category, LS, PS and
    ZWNBSP). *)
Definition isSpace (c : char) : bool :=
  oneOf [9; 10; 11; 12; 13; 32; 0xA0; 0x1680; 0x2028; 0x2029; 0x202F;
         0x205F; 0x3000; 0xFEFF]%N c
  || between 0x2000%N 0x200A%N c.

(** [\d] *)
Definition isDigit (c : char) : bool := between 48%N 57%N c.

(** [\w] *)
Definition isWord (c : char) : bool :=
  between 65%N 90%N c || between 97%N 122%N c || isDigit c || (c =? 95)%N.

Fixpoint takeWhile (p : char -> bool) (s : jsstring) : jsstring :=
  match s with
  | c :: s' => if p c then c :: takeWhile p s' else []
  | [] => []
  end.

Fixpoint dropWhile (p : char -> bool) (s : jsstring) : jsstring :=
  match s with
  | c :: s' => if p c then dropWhile p s' else s
  | [] => []
  end.

Definition trimStart (s : jsstring) : jsstring := dropWhile isSpace s.
Definition trimEnd (s : jsstring) : jsstring := rev (dropWhile isSpace (rev s)).

(** [s.trim()] *)
Definition trim (s : jsstring) : jsstring := trimEnd (trimStart s).

(** [s.startsWith(p)] *)
Fixpoint startsWith (s p : jsstring) {struct p} : bool :=
  match p, s with
  | [], _ => true
  | a :: p', c :: s' => (a =? c)%N && startsWith s' p'
  | _ :: _, [] => false
  end.

(** [s.includes(k)] *)
Fixpoint includes (s k : jsstring) : bool :=
  startsWith s k ||
  match s with
  | [] => false
  | _ :: s' => includes s' k
  end.

(** [s.split(sep)] for a separator of one code unit: the pieces between
    the occurrences of [sep]; never empty. *)
Fixpoint split (sep : char) (s : jsstring) : list jsstring :=
  match s with
  | [] => [[]]
  | c :: s' =>
      if (c =? sep)%N then [] :: split sep s'
      else match split sep s' with
           | piece :: pieces => (c :: piece) :: pieces
           | [] => [[c]]
           end
  end.

(** [a.join(sep)] *)
Fixpoint join (sep : jsstring) (a : list jsstring) : jsstring :=
  match a with
  | [] => []
  | [x] => x
  | x :: rest => x ++ sep ++ join sep rest
  end.

(** [a.slice(1)] *)
Definition slice1 (A : Type) (a : list A) : list A := tl a.

(** [a.map((x, i) => f(x, i))] *)
Fixpoint mapi_from (A B : Type) (i : nat) (f : A -> nat -> B) (a : list A) : list B :=
  match a with
  | [] => []
  | x :: rest => f x i :: mapi_from (S i) f rest
  end.

Definition mapi (A B : Type) (f : A -> nat -> B) (a : list A) : list B :=
  mapi_from 0 f a.

(** ASCII upper-casing: a-z to A-Z, every other code unit unchanged. On a
    string of ASCII code units [String.prototype.toUpperCase] is this
    function; outside ASCII it follows the Unicode case tables, which the
    development takes as a parameter. *)
Definition asciiUpperChar (c : char) : char :=
  if between 97%N 122%N c then (c - 32)%N else c.

Definition asciiUpper (s : jsstring) : jsstring := map asciiUpperChar s.

Definition isAscii (c : char) : bool := (c <? 128)%N.

(** Exceptions: the only one this code can meet is the [TypeError] of a
    property access on [undefined]. *)
Inductive JsError : Type := TypeError.

Inductive Result (A : Type) : Type :=
| Ok (a : A)
| Throw (e : JsError).

Arguments Ok {A} a.
Arguments Throw {A} e.

Definition bind (A B : Type) (r : Result A) (k : A -> Result B) : Result B :=
  match r with
  | Ok a => k a
  | Throw e => Throw e
  end.

(** [a[i].m(...)]: reading index [i] gives [undefined] out of range, and
    calling a method on [undefined] throws. *)
Definition at_index (A : Type) (a : list A) (i : nat) : Result A :=
  match nth_error a i with
  | Some x => Ok x
  | None => Throw TypeError
  end.

(** [for (const x of a) body], the loop state threaded through. *)
Fixpoint forOf (A S : Type) (a : list A) (body : A -> S -> Result S) (st : S) : Result S :=
  match a with
  | [] => Ok st
  | x :: rest => bind (body x st) (forOf rest body)
  end.

(** [String(n)] for an integer [n]: the decimal digits, with a minus sign
    below zero (the notation of every integer smaller than 1e21 in size). *)
Definition numberToString (n : Z) : jsstring :=
  js (NilZero.string_of_int (Z.to_int n)).

(** [[...a].sort(cmp)]: the sort is stable, so for a comparator that is a
    consistent ordering the result is the one arrangement in which [x]
    stands before [y] when [cmp(x, y) < 0] and equal elements keep their
    order; insertion from the right computes it. *)
Fixpoint insertSorted (A : Type) (cmp : A -> A -> Z) (x : A) (l : list A) : list A :=
  match l with
  | [] => [x]
  | y :: l' => if (cmp x y <=? 0)%Z then x :: l else y :: insertSorted cmp x l'
  end.

Fixpoint sort (A : Type) (cmp : A -> A -> Z) (a : list A) : list A :=
  match a with
  | [] => []
  | x :: rest => insertSorted cmp x (sort cmp rest)
  end.

(** A [Set] of array indices: its values in insertion order, none twice. *)
Definition NumSet := list nat.

(** [s.has(x)] *)
Definition setHas (s : NumSet) (x : nat) : bool := existsb (Nat.eqb x) s.

(** [s.add(x)] *)
Definition setAdd (s : NumSet) (x : nat) : NumSet :=
  if setHas s x then s else s ++ [x].

(** [s.delete(x)] *)
Definition setDelete (s : NumSet) (x : nat) : NumSet :=
  filter (fun y => negb (Nat.eqb x y)) s.

End JS.

Notation "x <- r ;; k" := (JS.bind r (fun x => k))
  (at level 61, r at next level, right associativity).

(** ** The regular expressions of the source

    Each pattern of the source is a matcher that follows the order in which
    the backtracking engine tries the alternatives: a greedy quantifier
    takes the longest run first, a lazy one the shortest. *)

Module Re.
Import JS.

(** [s.split(re)]: [m s] is the length of the match of [re] at the head of
    [s]. The pattern used here never matches the empty string; [skip]
    counts the code units of a match still to pass, [cur] is the piece
    being collected, reversed. *)
Fixpoint split_go (m : jsstring -> option nat) (skip : nat) (cur s : jsstring) : list jsstring :=
  match s with
  | [] => [rev cur]
  | c :: s' =>
      match skip with
      | S k => split_go m k cur s'
      | O =>
          match m s with
          | Some (S n) => rev cur :: split_go m n [] s'
          | _ => split_go m 0 (c :: cur) s'
          end
      end
  end.

Definition split (m : jsstring -> option nat) (s : jsstring) : list jsstring :=
  split_go m 0 [] s.

(** [s.replace(re, ...)] with the [g] flag: [m prev s] is the match of
    [re] at the head of [s], where [prev] is the code unit before it (for
    the lookbehind); it gives the text that replaces the match and the
    length of the match. No pattern used here matches the empty string. *)
Fixpoint replaceAll_go (m : option char -> jsstring -> option (jsstring * nat))
    (skip : nat) (prev : option char) (s : jsstring) : jsstring :=
  match s with
  | [] => []
  | c :: s' =>
      match skip with
      | S k => replaceAll_go m k (Some c) s'
      | O =>
          match m prev s with
          | Some (out, S n) => out ++ replaceAll_go m n (Some c) s'
          | _ => c :: replaceAll_go m 0 (Some c) s'
          end
      end
  end.

Definition replaceAll (m : option char -> jsstring -> option (jsstring * nat))
    (s : jsstring) : jsstring :=
  replaceAll_go m 0 None s.

(** [/###\s+/] at the head of [s]: three hashes, then the longest run of
    white space, which has to hold at least one code unit. *)
Definition headingMarker (s : jsstring) : option nat :=
  if startsWith s (js "###") then
    match takeWhile isSpace (skipn 3 s) with
    | [] => None
    | ws => Some (3 + List.length ws)
    end
  else None.

(** [/\*+/] at the head of [s], replaced by the empty string. *)
Definition stars (_ : option char) (s : jsstring) : option (jsstring * nat) :=
  match takeWhile (N.eqb (ch "*")) s with
  | [] => None
  | run => Some ([], List.length run)
  end.

(** [s.replace(/\*+/g, "")] *)
Definition removeStars (s : jsstring) : jsstring := replaceAll stars s.

(** [/^\d+\.\s*/] replaced by the empty string: the digits are followed by
    a dot or the pattern does not match. *)
Definition stripOrdinal (s : jsstring) : jsstring :=
  match takeWhile isDigit s, dropWhile isDigit s with
  | _ :: _, c :: rest => if (c =? ch ".")%N then dropWhile isSpace rest else s
  | _, _ => s
  end.

(** [/^\d+\./.test(s)] *)
Definition isOrdinal (s : jsstring) : bool :=
  match takeWhile isDigit s, dropWhile isDigit s with
  | _ :: _, c :: _ => (c =? ch ".")%N
  | _, _ => false
  end.

(** [(.*?)\*\*] at the head of [s]: the lazy star tries the closing
    asterisks first and takes one more code unit (never a line terminator)
    only when they are not there. Gives the capture and the length matched. *)
Fixpoint lazyToStars (s : jsstring) : option (jsstring * nat) :=
  if startsWith s (js "**") then Some ([], 2)
  else match s with
       | c :: s' =>
           if isLineTerminator c then None
           else match lazyToStars s' with
                | Some (g, n) => Some (c :: g, S n)
                | None => None
                end
       | [] => None
       end.

(** [/\*\*(.*?)\*\*/] at the head of [s], replaced by
    [openTag ++ $1 ++ closeTag]. *)
Definition bold (openTag closeTag : jsstring) (_ : option char) (s : jsstring)
    : option (jsstring * nat) :=
  if startsWith s (js "**") then
    match lazyToStars (skipn 2 s) with
    | Some (g, n) => Some (openTag ++ g ++ closeTag, 2 + n)
    | None => None
    end
  else None.

(** The class of the lookbehind [(?<![<\w\d#/])]: it fails when the code
    unit before the match is one of these, and holds at the start. *)
Definition guarded (prev : option char) : bool :=
  match prev with
  | None => false
  | Some p => (p =? ch "<")%N || isWord p || isDigit p || (p =? ch "#")%N || (p =? ch "/")%N
  end.

(** [(?:\+|↑|↓|%|B|K|M|x)]: U+2191 and U+2193 are the arrows. *)
Definition isSuffix (c : char) : bool :=
  oneOf [ch "+"; 0x2191; 0x2193; ch "%"; ch "B"; ch "K"; ch "M"; ch "x"]%N c.

Definition isDigitOrComma (c : char) : bool := isDigit c || (c =? ch ",")%N.

(** An optional single code unit of class [p] at the head of [s]. *)
Definition optional (p : char -> bool) (s : jsstring) : jsstring :=
  match s with
  | c :: _ => if p c then [c] else []
  | [] => []
  end.

(** [\d[\d,]*\.?\d*(?:\+|↑|↓|%|B|K|M|x)?] at the head of [s]: after the
    first digit every piece may be empty, so each greedy piece keeps what
    it took first. *)
Definition numberToken (s : jsstring) : option jsstring :=
  match s with
  | d :: s1 =>
      if isDigit d then
        let a := takeWhile isDigitOrComma s1 in
        let s2 := dropWhile isDigitOrComma s1 in
        let b := optional (N.eqb (ch ".")) s2 in
        let s3 := skipn (List.length b) s2 in
        let c := takeWhile isDigit s3 in
        let s4 := dropWhile isDigit s3 in
        let e := optional isSuffix s4 in
        Some (d :: a ++ b ++ c ++ e)
      else None
  | [] => None
  end.

(** [/(?<![<\w\d#/])(\d[\d,]*\.?\d*(?:\+|↑|↓|%|B|K|M|x)?)/] at the head of
    [s], replaced by [openTag ++ $1 ++ closeTag]. *)
Definition number (openTag closeTag : jsstring) (prev : option char) (s : jsstring)
    : option (jsstring * nat) :=
  if guarded prev then None
  else match numberToken s with
       | Some tok => Some (openTag ++ tok ++ closeTag, List.length tok)
       | None => None
       end.

(** [/^[...]\s*/] replaced by the empty string, for the class [glyphs]. *)
Definition stripBullet (glyphs : list char) (s : jsstring) : jsstring :=
  match s with
  | c :: rest => if oneOf glyphs c then dropWhile isSpace rest else s
  | [] => s
  end.

(** [(.+)] at the head of [s]: the longest run without a line terminator,
    at least one code unit. *)
Definition dotPlus (s : jsstring) : option jsstring :=
  match takeWhile (fun c => negb (isLineTerminator c)) s with
  | [] => None
  | g => Some g
  end.

(** [\s*(.+)] at the head of [s]: the star first takes one more white
    space and gives it back when the rest then fails. *)
Fixpoint spacesDotPlus (s : jsstring) : option jsstring :=
  match s with
  | [] => None
  | c :: s' =>
      if isSpace c then
        match spacesDotPlus s' with
        | Some g => Some g
        | None => dotPlus s
        end
      else dotPlus s
  end.

(** [#{k}\s+(.+)] at the head of [s], for exactly [k] hashes. *)
Definition hashesThen (k : nat) (s : jsstring) : option jsstring :=
  if startsWith s (repeat (ch "#") k) then
    match skipn k s with
    | c :: s' => if isSpace c then spacesDotPlus s' else None
    | [] => None
    end
  else None.

(** [line.match(/^#{1,3}\s+(.+)/)]: the capture, when the line matches.
    The counted repetition tries three hashes, then two, then one. *)
Definition headerLine (line : jsstring) : option jsstring :=
  match hashesThen 3 line with
  | Some g => Some g
  | None =>
      match hashesThen 2 line with
      | Some g => Some g
      | None => hashesThen 1 line
      end
  end.

End Re.

(** ** Data model *)

(** The value of an entry of [SECTION_CONFIG]. *)
Record SectionStyle : Type := mkStyle {
  style_icon : jsstring;
  style_gradient : jsstring
}.

(** The label table: [Object.entries] lists the keys of an object literal
    in the order they are written, so the table is an association list. *)
Definition LabelTable := list (jsstring * SectionStyle).

Record Section : Type := mkSection {
  title : jsstring;
  content : jsstring;
  icon : jsstring;
  gradient : jsstring
}.

(** A rendered line: the row with the marker glyph, or the bare paragraph.
    [key] is the React key (the index of the line), [className] the class
    of the [<p>] element and [html] what goes into it as raw markup. *)
Inductive Block : Type :=
| Bullet (key : nat) (className html : jsstring)
| Paragraph (key : nat) (className html : jsstring).

Definition blockHtml (b : Block) : jsstring :=
  match b with
  | Bullet _ _ h => h
  | Paragraph _ _ h => h
  end.

Definition isBulletBlock (b : Block) : bool :=
  match b with
  | Bullet _ _ _ => true
  | Paragraph _ _ _ => false
  end.

Record ActionItem : Type := mkItem {
  id : jsstring;
  text : jsstring;
  completed : bool
}.

(** The markup the formatter inserts. *)
Definition EM_OPEN : jsstring :=
  js "<span class=" ++ [DQ] ++ js "text-white font-semibold" ++ [DQ] ++ js ">".

Definition NUM_OPEN : jsstring :=
  js "<span class=" ++ [DQ] ++ js "text-amber-400 font-medium tabular-nums" ++ [DQ] ++ js ">".

Definition SPAN_CLOSE : jsstring := js "</span>".

Definition NL : char := 10%N.

(** [html.replace(/\*\*(.*?)\*\*/g, '<span class="text-white font-semibold">$1</span>')] *)
Definition emphasize (s : jsstring) : jsstring :=
  Re.replaceAll (Re.bold EM_OPEN SPAN_CLOSE) s.

(** [highlightNumbers], the same text in src/app/page.tsx and in part_000. *)
Definition highlightNumbers (html : jsstring) : jsstring :=
  Re.replaceAll (Re.number NUM_OPEN SPAN_CLOSE) html.

(** [Object.entries(table).find(([key]) => title.toUpperCase().includes(key))] *)
Definition findLabel (toUpperCase : jsstring -> jsstring) (table : LabelTable)
    (title : jsstring) : option (jsstring * SectionStyle) :=
  find (fun entry => JS.includes (toUpperCase title) (fst entry)) table.

(** The first line of a part is its heading: [lines[0].replace(/\*+/g, "").trim()]
    for [lines = part.trim().split("\n")]. *)
Definition titleOfLine (line0 : jsstring) : jsstring :=
  JS.trim (Re.removeStars line0).

(** [lines.slice(1).join("\n").trim()] *)
Definition contentOfLines (lines : list jsstring) : jsstring :=
  JS.trim (JS.join [NL] (JS.slice1 lines)).

(** A linked item of the briefing. [score] and [comments] are the counts of
    the feed, whole numbers. *)
Record SourceItem : Type := mkSource {
  src_title : jsstring;
  src_url : jsstring;
  score : Z;
  comments : Z;
  source : jsstring
}.

(** [[...sources].sort((a, b) => b.score - a.score)] *)
Definition sortByScore (sources : list SourceItem) : list SourceItem :=
  JS.sort (fun a b => (score b - score a)%Z) sources.

(** [items.filter((i) => !i.completed).length], the count shown as remaining. *)
Definition remaining (items : list ActionItem) : nat :=
  List.length (filter (fun i => negb (completed i)) items).

(** [{ id: Date.now().toString(), text, completed: false }] appended to the
    list; [now] is the clock in milliseconds. *)
Definition appendItem (now : Z) (text : jsstring) (prev : list ActionItem)
    : list ActionItem :=
  prev ++ [mkItem (JS.numberToString now) text false].

(** [toggleSection(index)]: a copy of the set with [index] taken out when
    it is in, put in when it is not. The same text in src/app/page.tsx and
    in part_000. *)
Definition toggleSection (index : nat) (prev : JS.NumSet) : JS.NumSet :=
  let next := prev in
  if JS.setHas next index then JS.setDelete next index else JS.setAdd next index.

(** [getTimeAgo], the same text in src/app/page.tsx and in part_000.
    [diff] is [Date.now() - new Date(dateStr).getTime()]: a whole number of
    milliseconds, or [None] for the NaN of a date that does not parse. On
    whole numbers of this size [Math.floor(x / k)] is the floor division;
    every comparison with NaN is false, and NaN prints as [NaN]. *)
Definition getTimeAgoOf (diff : option Z) : jsstring :=
  match diff with
  | None => js "NaNd ago"
  | Some diff =>
      let seconds := (diff / 1000)%Z in
      if (seconds <? 60)%Z then js "just now"
      else
        let minutes := (seconds / 60)%Z in
        if (minutes <? 60)%Z then JS.numberToString minutes ++ js "m ago"
        else
          let hours := (minutes / 60)%Z in
          if (hours <? 24)%Z then JS.numberToString hours ++ js "h ago"
          else JS.numberToString (hours / 24)%Z ++ js "d ago"
  end.

(** [now] is [Date.now()] and [getTime] the parser of [new Date(...)]. *)
Definition getTimeAgo (now : Z) (getTime : jsstring -> option Z) (dateStr : jsstring)
    : jsstring :=
  getTimeAgoOf (option_map (fun t => (now - t)%Z) (getTime dateStr)).

(** What the loop body computes from a part of the split, named: the lines
    of the trimmed part, its heading and its body. *)
Definition partLines (part : jsstring) : list jsstring :=
  JS.split NL (JS.trim part).

Definition partTitle (part : jsstring) : jsstring :=
  titleOfLine (hd [] (partLines part)).

Definition partContent (part : jsstring) : jsstring :=
  contentOfLines (partLines part).

(** Some key of the table is a substring of the upper-cased heading. *)
Definition matchesLabel (V : Type) (toUpperCase : jsstring -> jsstring)
    (table : list (jsstring * V)) (heading : jsstring) : bool :=
  existsb (fun entry => JS.includes (toUpperCase heading) (fst entry)) table.

(** ** src/unnamed/part_001 *)

Module Part001.
Import JS.

Section WithUpperCase.
Variable toUpperCase : jsstring -> jsstring.

Record Section : Type := mkSection {
  title : jsstring;
  content : jsstring;
  icon : jsstring
}.

(** The literals of this revision are stored mis-decoded; the code units
    are the ones of the file. *)
Definition sectionMap : list (jsstring * jsstring) :=
  [ (js "COMMUNITY PULSE", [0xF0; 0x178; 0x201C; 0xA1]%N);
    (js "KEY DEVELOPMENTS", [0xE2; 0x161; 0xA1]%N);
    (js "WHAT THIS MEANS FOR TP", [0xF0; 0x178; 0x17D; 0xAF]%N) ].

Definition defaultIcon : jsstring := [0xF0; 0x178; 0x201C; 0x2039]%N.

Definition bulletGlyph : jsstring := [0xE2; 0x20AC; 0xA2]%N.

(** [Object.entries(sectionMap).find(...)?.[1] || default] *)
Definition iconFor (title : jsstring) : jsstring :=
  match find (fun entry => includes (toUpperCase title) (fst entry)) sectionMap with
  | Some (_, i) => if truthy i then i else defaultIcon
  | None => defaultIcon
  end.

(** The body of the loop over the parts. *)
Definition parsePart (part : jsstring) (sections : list Section)
    : Result (list Section) :=
  if negb (truthy (trim part)) then Ok sections
  else
    let lines := JS.split NL (trim part) in
    line0 <- at_index lines 0 ;;
    let title := titleOfLine line0 in
    let content := contentOfLines lines in
    let icon := iconFor title in
    if truthy content then Ok (sections ++ [mkSection title content icon])
    else Ok sections.

Definition parseSections (markdown : jsstring) : Result (list Section) :=
  let parts := Re.split Re.headingMarker markdown in
  forOf parts parsePart [].

(** What a part adds to the output, as the specification words it: a section for
    every part with a body, whatever its heading. *)
Definition contribution (part : jsstring) : list Section :=
  if truthy (partContent part)
  then [mkSection (partTitle part) (partContent part) (iconFor (partTitle part))]
  else [].

Definition pClass : jsstring := js "text-zinc-300 leading-relaxed text-sm".

Definition formatLine (line : jsstring) (i : nat) : option Block :=
  let trimmed := trim line in
  if negb (truthy trimmed) then None
  else
    let formatted := emphasize (Re.stripOrdinal trimmed) in
    let isBullet := startsWith trimmed (js "-") || startsWith trimmed bulletGlyph in
    let cleanLine :=
      if isBullet then Re.stripBullet (ch "-" :: bulletGlyph) formatted else formatted in
    if isBullet then Some (Bullet i pClass cleanLine)
    else Some (Paragraph i pClass cleanLine).

Definition formatBullets (text : jsstring) : list (option Block) :=
  mapi formatLine (JS.split NL text).

End WithUpperCase.
End Part001.

(** ** src/app/page.tsx *)

Module Page.
Import JS.

(** U+1F4E1, U+26A1 and U+1F3AF, the first and the last as surrogate pairs. *)
Definition SECTION_CONFIG : LabelTable :=
  [ (js "COMMUNITY PULSE",
     mkStyle [0xD83D; 0xDCE1]%N (js "from-amber-500/10 to-transparent"));
    (js "KEY DEVELOPMENTS",
     mkStyle [0x26A1]%N (js "from-orange-500/10 to-transparent"));
    (js "WHAT THIS MEANS FOR TP",
     mkStyle [0xD83C; 0xDFAF]%N (js "from-amber-600/10 to-transparent")) ].

(** U+2022, the bullet. *)
Definition bulletGlyph : jsstring := [0x2022]%N.

Section WithUpperCase.
Variable toUpperCase : jsstring -> jsstring.

(** The body of the loop over the parts, for a label table [table]. *)
Definition parsePartWith (table : LabelTable) (part : jsstring) (sections : list Section)
    : Result (list Section) :=
  if negb (truthy (trim part)) then Ok sections
  else
    let lines := JS.split NL (trim part) in
    line0 <- at_index lines 0 ;;
    let title := titleOfLine line0 in
    let content := contentOfLines lines in
    let found := findLabel toUpperCase table title in
    match truthy content, found with
    | true, Some (key, style) =>
        Ok (sections ++ [mkSection key content (style_icon style) (style_gradient style)])
    | _, _ => Ok sections
    end.

Definition parseSectionsWith (table : LabelTable) (markdown : jsstring)
    : Result (list Section) :=
  let parts := Re.split Re.headingMarker markdown in
  forOf parts (parsePartWith table) [].

(** What a part adds to the output, as the specification words it: a section under
    the label found for its heading, when it has a body. *)
Definition contribution (table : LabelTable) (part : jsstring) : list Section :=
  match truthy (partContent part), findLabel toUpperCase table (partTitle part) with
  | true, Some (key, style) =>
      [mkSection key (partContent part) (style_icon style) (style_gradient style)]
  | _, _ => []
  end.

Definition parseSections (markdown : jsstring) : Result (list Section) :=
  parseSectionsWith SECTION_CONFIG markdown.

End WithUpperCase.

Definition bulletClass : jsstring := js "text-zinc-400 leading-relaxed text-sm".
Definition paragraphClass : jsstring := js "text-zinc-400 leading-relaxed text-sm mb-3".

Definition formatLine (line : jsstring) (i : nat) : option Block :=
  let trimmed := trim line in
  if negb (truthy trimmed) then None
  else
    let formatted := highlightNumbers (emphasize (Re.stripOrdinal trimmed)) in
    let isBullet := startsWith trimmed (js "-") || startsWith trimmed bulletGlyph in
    let isNumbered := Re.isOrdinal trimmed in
    let cleanLine :=
      if isBullet || isNumbered
      then Re.stripBullet (ch "-" :: bulletGlyph) formatted else formatted in
    if isBullet || isNumbered then Some (Bullet i bulletClass cleanLine)
    else Some (Paragraph i paragraphClass formatted).

Definition formatBullets (text : jsstring) : list (option Block) :=
  mapi formatLine (JS.split NL text).

(** [setActionItems((prev) => prev.map(...))]: the new list from the old. *)
Definition toggleActionItem (target : jsstring) (prev : list ActionItem) : list ActionItem :=
  map (fun item =>
         if JS.eqb (id item) target
         then mkItem (id item) (text item) (negb (completed item))
         else item)
      prev.

(** [setActionItems((prev) => prev.filter((item) => item.id !== id))] *)
Definition deleteActionItem (target : jsstring) (prev : list ActionItem) : list ActionItem :=
  filter (fun item => negb (JS.eqb (id item) target)) prev.

(** [addActionItem(text)] *)
Definition addActionItem (now : Z) (text : jsstring) (prev : list ActionItem)
    : list ActionItem :=
  appendItem now text prev.

(** [handleSubmit] of the action-item form: the state is the text of the
    input field and the list of items. *)
Definition handleSubmit (now : Z) (input : jsstring) (items : list ActionItem)
    : jsstring * list ActionItem :=
  let trimmed := trim input in
  if negb (truthy trimmed) then (input, items)
  else ([], addActionItem now trimmed items).

(** The list of [SourceFeed]:
    [filter === "all" ? sources : sources.filter((s) => s.source === filter)],
    then the sort by score. *)
Definition filteredSources (sourceFilter : jsstring) (sources : list SourceItem)
    : list SourceItem :=
  if JS.eqb sourceFilter (js "all") then sources
  else filter (fun s => JS.eqb (source s) sourceFilter) sources.

Definition sortedSources (sourceFilter : jsstring) (sources : list SourceItem)
    : list SourceItem :=
  sortByScore (filteredSources sourceFilter sources).

End Page.

(** ** src/unnamed/part_000 *)

Module Part000.
Import JS.

(** U+26A1, U+1F4E1, U+1F511 and U+1F3AF. *)
Definition SECTION_CONFIG : LabelTable :=
  [ (js "QUICK BRIEF",
     mkStyle [0x26A1]%N (js "from-amber-400/10 to-orange-500/5"));
    (js "COMMUNITY PULSE",
     mkStyle [0xD83D; 0xDCE1]%N (js "from-amber-500/10 to-transparent"));
    (js "KEY DEVELOPMENTS",
     mkStyle [0xD83D; 0xDD11]%N (js "from-orange-500/10 to-transparent"));
    (js "WHAT THIS MEANS FOR TP",
     mkStyle [0xD83C; 0xDFAF]%N (js "from-amber-600/10 to-transparent")) ].

Definition bulletGlyph : jsstring := [0x2022]%N.

Section WithUpperCase.
Variable toUpperCase : jsstring -> jsstring.

(** The state of the loop over the lines. *)
Record Scan : Type := mkScan {
  sections : list Section;
  currentTitle : jsstring;
  currentContent : list jsstring
}.

(** The block the source has twice, inside the loop at a header line and
    once more after the loop: push the part collected so far. *)
Definition pushCurrent (table : LabelTable) (st : Scan) : list Section :=
  if truthy (currentTitle st) && (0 <? List.length (currentContent st)) then
    let trimmedContent := trim (join [NL] (currentContent st)) in
    match findLabel toUpperCase table (currentTitle st), truthy trimmedContent with
    | Some (key, style), true =>
        sections st ++
        [mkSection key trimmedContent (style_icon style) (style_gradient style)]
    | _, _ => sections st
    end
  else sections st.

Definition scanLine (table : LabelTable) (st : Scan) (line : jsstring) : Scan :=
  match Re.headerLine line with
  | Some group1 =>
      mkScan (pushCurrent table st) (titleOfLine group1) []
  | None =>
      mkScan (sections st) (currentTitle st) (currentContent st ++ [line])
  end.

Definition parseSectionsWith (table : LabelTable) (markdown : jsstring) : list Section :=
  let lines := JS.split NL markdown in
  pushCurrent table (fold_left (scanLine table) lines (mkScan [] [] [])).

(** The heading-delimited parts, as the specification words them: every header line
    opens a part made of its heading and the lines below it; the lines
    above the first header line form a part with the empty heading. *)
Fixpoint headingParts (heading : jsstring) (body lines : list jsstring)
    : list (jsstring * list jsstring) :=
  match lines with
  | [] => [(heading, body)]
  | line :: rest =>
      match Re.headerLine line with
      | Some group1 => (heading, body) :: headingParts (titleOfLine group1) [] rest
      | None => headingParts heading (body ++ [line]) rest
      end
  end.

Definition bodyOf (body : list jsstring) : jsstring := trim (join [NL] body).

(** What a part adds to the output. *)
Definition contribution (table : LabelTable) (part : jsstring * list jsstring)
    : list Section :=
  pushCurrent table (mkScan [] (fst part) (snd part)).

Definition parseSections (markdown : jsstring) : list Section :=
  parseSectionsWith SECTION_CONFIG markdown.

End WithUpperCase.

Definition textClass (large : bool) : jsstring :=
  if large then js "text-[15px] sm:text-base text-zinc-300 leading-relaxed"
  else js "text-[15px] sm:text-sm text-zinc-400 leading-relaxed".

Definition formatLine (large : bool) (line : jsstring) (i : nat) : option Block :=
  let trimmed := trim line in
  if negb (truthy trimmed) then None
  else
    let formatted := highlightNumbers (emphasize (Re.stripOrdinal trimmed)) in
    let isBullet := startsWith trimmed (js "-") || startsWith trimmed bulletGlyph in
    let isNumbered := Re.isOrdinal trimmed in
    let cleanLine :=
      if isBullet || isNumbered
      then Re.stripBullet (ch "-" :: bulletGlyph) formatted else formatted in
    if isBullet || isNumbered then Some (Bullet i (textClass large) cleanLine)
    else Some (Paragraph i (textClass large ++ js " mb-3") formatted).

(** [formatBullets(text, large = false)] *)
Definition formatBullets (text : jsstring) (large : bool) : list (option Block) :=
  mapi (formatLine large) (JS.split NL text).

Definition toggleActionItem (target : jsstring) (prev : list ActionItem) : list ActionItem :=
  map (fun item =>
         if JS.eqb (id item) target
         then mkItem (id item) (text item) (negb (completed item))
         else item)
      prev.

Definition deleteActionItem (target : jsstring) (prev : list ActionItem) : list ActionItem :=
  filter (fun item => negb (JS.eqb (id item) target)) prev.

(** [handleAddAction]: the state is the text of the input field and the
    list of items. *)
Definition handleAddAction (now : Z) (actionInput : jsstring) (items : list ActionItem)
    : jsstring * list ActionItem :=
  let trimmed := trim actionInput in
  if negb (truthy trimmed) then (actionInput, items)
  else ([], appendItem now trimmed items).




(** [allSections.find((s) => s.title === "QUICK BRIEF")] *)
Definition quickBrief (allSections : list Section) : option Section :=
  find (fun s => JS.eqb (title s) (js "QUICK BRIEF")) allSections.

(** [allSections.filter((s) => s.title !== "QUICK BRIEF")] *)
Definition extendedSections (allSections : list Section) : list Section :=
  filter (fun s => negb (JS.eqb (title s) (js "QUICK BRIEF"))) allSections.

Record FilterTab : Type := mkTab {
  tab_key : jsstring;
  tab_label : jsstring;
  tab_sources : list jsstring
}.

Definition FILTER_TABS : list FilterTab :=
  [ mkTab (js "all") (js "All") [];
    mkTab (js "reddit") (js "Reddit") [js "reddit"];
    mkTab (js "hackernews") (js "HN") [js "hackernews"];
    mkTab (js "techcrunch") (js "TechCrunch") [js "techcrunch"];
    mkTab (js "research") (js "Research") [js "arxiv"; js "stanford"; js "deepmind"];
    mkTab (js "consulting") (js "Consulting") [js "mckinsey"; js "bcg"; js "bain"] ].

(** [a.includes(x)] on an array of strings. *)
Definition arrayIncludes (a : list jsstring) (x : jsstring) : bool :=
  existsb (fun y => JS.eqb y x) a.

(** The tabs shown: the first one, and every tab some source belongs to. *)
Definition availableFilters (sources : list SourceItem) : list FilterTab :=
  filter (fun tab =>
            JS.eqb (tab_key tab) (js "all")
            || existsb (fun s => arrayIncludes (tab_sources tab) (source s)) sources)
         FILTER_TABS.

Definition filteredSources (sourceFilter : jsstring) (sources : list SourceItem)
    : list SourceItem :=
  if JS.eqb sourceFilter (js "all") then sources
  else filter (fun s =>
                 match find (fun t => JS.eqb (tab_key t) sourceFilter) FILTER_TABS with
                 | Some tab => arrayIncludes (tab_sources tab) (source s)
                 | None => false
                 end)
              sources.

Definition sortedSources (sourceFilter : jsstring) (sources : list SourceItem)
    : list SourceItem :=
  sortByScore (filteredSources sourceFilter sources).

End Part000.

(** The scan of [highlightNumbers] from inside the text: [prev] is the code
    unit before the position. *)
Definition highlightFrom (prev : option char) (s : jsstring) : jsstring :=
  Re.replaceAll_go (Re.number NUM_OPEN SPAN_CLOSE) 0 prev s.

(** The code unit before the position reached after [t]. *)
Definition prevAfter (prev : option char) (t : jsstring) : option char :=
  fold_left (fun _ c => Some c) t prev.




Definition noDigit (s : jsstring) : bool := forallb (fun c => negb (JS.isDigit c)) s.

Definition noHash (s : jsstring) : bool := forallb (fun c => negb (c =? ch "#")%N) s.

Definition startsWithSpace (s : jsstring) : bool :=
  match s with
  | c :: _ => JS.isSpace c
  | [] => false
  end.

(** ** src/app/page.tsx, with the objects it allocates and reaches

    [parseSections] fills an array it has made with [push] and reads the
    module-level object [SECTION_CONFIG]; [formatBullets] returns the array
    [map] makes. Here the store holds that object and every array
    allocated so far, an array being named by its address. The regular
    expressions are literals inside the functions: each evaluation makes a
    new object, none is kept between calls. *)

Module PageHeap.
Import JS.

Inductive Obj : Type :=
| SectionArray (items : list Section)
| BlockArray (items : list (option Block)).

Record Store : Type := mkStore {
  SECTION_CONFIG : LabelTable;
  heap : list Obj
}.

(** A computation on the store that may throw. *)
Definition M (A : Type) : Type := Store -> Result A * Store.

Definition ret (A : Type) (a : A) : M A := fun st => (Ok a, st).

Definition bindM (A B : Type) (c : M A) (k : A -> M B) : M B :=
  fun st =>
    match c st with
    | (Ok a, st') => k a st'
    | (Throw e, st') => (Throw e, st')
    end.

Definition lift (A : Type) (r : Result A) : M A := fun st => (r, st).

(** [Object.entries(SECTION_CONFIG)] *)
Definition entries : M LabelTable := fun st => (Ok (SECTION_CONFIG st), st).

(** A new object, at the next address. *)
Definition alloc (o : Obj) : M nat :=
  fun st => (Ok (List.length (heap st)), mkStore (SECTION_CONFIG st) (heap st ++ [o])).

Fixpoint setNth (A : Type) (n : nat) (x : A) (l : list A) : list A :=
  match l, n with
  | [], _ => []
  | _ :: l', O => x :: l'
  | y :: l', S n' => y :: setNth n' x l'
  end.

(** [a.push(x)] on the array at address [a]. *)
Definition push (a : nat) (x : Section) : M unit :=
  fun st =>
    match nth_error (heap st) a with
    | Some (SectionArray items) =>
        (Ok tt,
         mkStore (SECTION_CONFIG st) (setNth a (SectionArray (items ++ [x])) (heap st)))
    | _ => (Throw TypeError, st)
    end.

(** [for (const x of a) body] *)
Fixpoint forOfM (A : Type) (a : list A) (body : A -> M unit) : M unit :=
  match a with
  | [] => ret tt
  | x :: rest => bindM (body x) (fun _ => forOfM rest body)
  end.

Section WithUpperCase.
Variable toUpperCase : jsstring -> jsstring.

(** The body of the loop of [parseSections]; [sections] is the address of
    the array being filled. *)
Definition parsePart (sections : nat) (part : jsstring) : M unit :=
  if negb (truthy (trim part)) then ret tt
  else
    let lines := JS.split NL (trim part) in
    bindM (lift (at_index lines 0)) (fun line0 =>
    let title := titleOfLine line0 in
    let content := contentOfLines lines in
    bindM entries (fun table =>
    let found := find (fun entry => includes (toUpperCase title) (fst entry)) table in
    match truthy content, found with
    | true, Some (key, style) =>
        push sections (mkSection key content (style_icon style) (style_gradient style))
    | _, _ => ret tt
    end)).

(** [parseSections]: the address of the array it returns. *)
Definition parseSections (markdown : jsstring) : M nat :=
  bindM (alloc (SectionArray [])) (fun sections =>
  let parts := Re.split Re.headingMarker markdown in
  bindM (forOfM parts (parsePart sections)) (fun _ =>
  ret sections)).

End WithUpperCase.

(** [formatBullets]: the address of the array [map] returns. *)
Definition formatBullets (text : jsstring) : M nat :=
  alloc (BlockArray (mapi Page.formatLine (JS.split NL text))).

End PageHeap.

(** No match of the heading marker starts inside [pre] when [tail] comes
    after it. *)
Fixpoint noMarkerStarts (pre tail : jsstring) : bool :=
  match pre with
  | [] => true
  | _ :: pre' =>
      match Re.headingMarker (pre ++ tail) with
      | Some _ => false
      | None => noMarkerStarts pre' tail
      end
  end.



(** ** Predicates of the further properties *)

(** No white space at the start, none at the end. *)
Definition startsClean (s : jsstring) : bool :=
  match s with
  | [] => true
  | c :: _ => negb (JS.isSpace c)
  end.

Definition endsClean (s : jsstring) : bool := startsClean (rev s).

(** A text that is not empty and that [trim] leaves as it is. *)
Definition tidy (s : jsstring) : bool :=
  JS.truthy s && JS.eqb (JS.trim s) s.

(** The comparator of the feed, [(a, b) => b.score - a.score]. *)
Definition byScore (a b : SourceItem) : Z := (score b - score a)%Z.

Definition noStar (s : jsstring) : bool := forallb (fun c => negb (ch "*" =? c)%N) s.

(** The section src/app/page.tsx makes of a section of part_001: the same
    body under the label found for the title, or nothing. *)
Definition relabel (toUpperCase : jsstring -> jsstring) (q : Part001.Section)
    : list Section :=
  match findLabel toUpperCase Page.SECTION_CONFIG (Part001.title q) with
  | Some (key, style) =>
      [mkSection key (Part001.content q) (style_icon style) (style_gradient style)]
  | None => []
  end.

(** [out] is [s] with some pieces wrapped between [openTag] and [closeTag]:
    nothing else is added, nothing is taken away, and every wrapped piece
    satisfies [piece]. *)
Inductive Marked (piece : jsstring -> Prop) (openTag closeTag : jsstring)
    : jsstring -> jsstring -> Prop :=
| Marked_end : Marked piece openTag closeTag [] []
| Marked_copy (c : char) (s out : jsstring) :
    Marked piece openTag closeTag s out ->
    Marked piece openTag closeTag (c :: s) (c :: out)
| Marked_wrap (tok s out : jsstring) :
    piece tok ->
    Marked piece openTag closeTag s out ->
    Marked piece openTag closeTag (tok ++ s) (openTag ++ tok ++ closeTag ++ out).

(** The code units a numeric token is made of. *)
Definition isNumberChar (c : char) : bool :=
  JS.isDigit c || (c =? ch ",")%N || (c =? ch ".")%N || Re.isSuffix c.

(** A piece the number highlighter wraps: it starts with a digit and holds
    digits, commas, dots and suffixes only. *)
Definition numberPiece (tok : jsstring) : Prop :=
  (exists d rest, tok = d :: rest /\ JS.isDigit d = true)
  /\ forallb isNumberChar tok = true.

Definition noLineTerminator (s : jsstring) : bool :=
  forallb (fun c => negb (JS.isLineTerminator c)) s.

(** [out] is [s] with some pieces [**t**] replaced by [t] between the
    emphasis tags; a piece never holds a line terminator. *)
Inductive Emphasized : jsstring -> jsstring -> Prop :=
| Emphasized_end : Emphasized [] []
| Emphasized_copy (c : char) (s out : jsstring) :
    Emphasized s out -> Emphasized (c :: s) (c :: out)
| Emphasized_span (t s out : jsstring) :
    noLineTerminator t = true ->
    Emphasized s out ->
    Emphasized (js "**" ++ t ++ js "**" ++ s) (EM_OPEN ++ t ++ SPAN_CLOSE ++ out).

Definition blockKey (b : Block) : nat :=
  match b with
  | Bullet k _ _ => k
  | Paragraph k _ _ => k
  end.


Definition noNewline (s : jsstring) : bool := forallb (fun c => negb (c =? NL)%N) s.

(* ================================================================== *)
(** * Part II: theorems *)
(* ================================================================== *)

Unset Implicit Arguments.

(** ** The runtime *)

Lemma split_not_nil (sep : char) (s : jsstring) : JS.split sep s <> [].
Proof.
  induction s as [|c s IH]; simpl; [discriminate|].
  destruct (c =? sep)%N; [discriminate|].
  destruct (JS.split sep s); discriminate.
Qed.

Lemma at_index_0_split (sep : char) (s : jsstring) :
  JS.at_index (JS.split sep s) 0 = JS.Ok (hd [] (JS.split sep s)).
Proof.
  pose proof (split_not_nil sep s) as H.
  destruct (JS.split sep s); [contradiction|reflexivity].
Qed.

Lemma truthy_false (s : jsstring) : JS.truthy s = false <-> s = [].
Proof. destruct s; simpl; split; congruence. Qed.

Lemma truthy_true (s : jsstring) : JS.truthy s = true <-> s <> [].
Proof. destruct s; simpl; split; congruence. Qed.

Lemma eqb_eq (a b : jsstring) : JS.eqb a b = true <-> a = b.
Proof. unfold JS.eqb. destruct (list_eq_dec N.eq_dec a b); split; congruence. Qed.

Lemma mapi_from_length (A B : Type) (f : A -> nat -> B) (a : list A) (i : nat) :
  List.length (JS.mapi_from i f a) = List.length a.
Proof.
  revert i. induction a as [|x a IH]; intros i; simpl; [reflexivity|].
  now rewrite IH.
Qed.

Lemma forOf_append (A S : Type) (body : A -> list S -> JS.Result (list S))
    (add : A -> list S) :
  (forall x st, body x st = JS.Ok (st ++ add x)) ->
  forall a st, JS.forOf a body st = JS.Ok (st ++ flat_map add a).
Proof.
  intros Hbody a. induction a as [|x a IH]; intros st; simpl.
  - now rewrite app_nil_r.
  - rewrite Hbody. simpl. rewrite IH. now rewrite app_assoc.
Qed.

Lemma flat_map_all_nil (A B : Type) (f : A -> list B) (a : list A) :
  forallb (fun x => match f x with [] => true | _ => false end) a = true ->
  flat_map f a = [].
Proof.
  induction a as [|x a IH]; simpl; [reflexivity|].
  intros H. apply andb_true_iff in H as [Hx Ha].
  destruct (f x); [now apply IH|discriminate].
Qed.

Lemma find_some_exists (A : Type) (f : A -> bool) (l : list A) :
  existsb f l = true <-> exists x, find f l = Some x.
Proof.
  induction l as [|a l IH]; simpl.
  - split; [discriminate|intros [x Hx]; discriminate].
  - destruct (f a); simpl; [split; eauto|exact IH].
Qed.

Lemma find_none_exists (A : Type) (f : A -> bool) (l : list A) :
  existsb f l = false <-> find f l = None.
Proof.
  induction l as [|a l IH]; simpl.
  - split; reflexivity.
  - destruct (f a); simpl; [split; discriminate|exact IH].
Qed.

Lemma find_first (A : Type) (f : A -> bool) (pre post : list A) (x : A) :
  forallb (fun y => negb (f y)) pre = true ->
  f x = true ->
  find f (pre ++ x :: post) = Some x.
Proof.
  induction pre as [|a pre IH]; simpl; intros Hpre Hx.
  - now rewrite Hx.
  - apply andb_true_iff in Hpre as [Ha Hpre].
    apply negb_true_iff in Ha. rewrite Ha. now apply IH.
Qed.

(** ** The section classifier *)

Section Classifier.
Variable toUpperCase : jsstring -> jsstring.

Lemma findLabel_matches (table : LabelTable) (heading : jsstring) :
  matchesLabel toUpperCase table heading = true <->
  exists entry, findLabel toUpperCase table heading = Some entry.
Proof. unfold matchesLabel, findLabel. apply find_some_exists. Qed.

Lemma findLabel_no_match (table : LabelTable) (heading : jsstring) :
  matchesLabel toUpperCase table heading = false <->
  findLabel toUpperCase table heading = None.
Proof. unfold matchesLabel, findLabel. apply find_none_exists. Qed.

(** The loop body of src/app/page.tsx never throws: [lines[0]] is there,
    since a split has at least one piece. *)
Lemma page_parsePart_contribution (table : LabelTable) (part : jsstring)
    (secs : list Section) :
  Page.parsePartWith toUpperCase table part secs
  = JS.Ok (secs ++ Page.contribution toUpperCase table part).
Proof.
  unfold Page.parsePartWith, Page.contribution, partTitle, partContent, partLines.
  destruct (JS.truthy (JS.trim part)) eqn:Hblank; simpl negb; cbv iota.
  - rewrite at_index_0_split. simpl JS.bind.
    destruct (JS.truthy (contentOfLines (JS.split NL (JS.trim part)))).
    + destruct (findLabel toUpperCase table _) as [[key style]|];
        [reflexivity|now rewrite app_nil_r].
    + now rewrite app_nil_r.
  - apply truthy_false in Hblank. rewrite Hblank. simpl.
    now rewrite app_nil_r.
Qed.

Lemma page_parseSections_flat_map (table : LabelTable) (md : jsstring) :
  Page.parseSectionsWith toUpperCase table md
  = JS.Ok (flat_map (Page.contribution toUpperCase table)
             (Re.split Re.headingMarker md)).
Proof.
  unfold Page.parseSectionsWith.
  now rewrite (forOf_append _ _ _ _ (page_parsePart_contribution table)).
Qed.

Lemma page_contribution_iff (table : LabelTable) (part : jsstring) :
  Page.contribution toUpperCase table part <> [] <->
  matchesLabel toUpperCase table (partTitle part) = true /\ partContent part <> [].
Proof.
  unfold Page.contribution. rewrite <- truthy_true.
  destruct (JS.truthy (partContent part)).
  - destruct (findLabel toUpperCase table (partTitle part)) as [[key style]|] eqn:Hfind.
    + split; [intros _|intros _; discriminate].
      split; [|reflexivity]. apply findLabel_matches. eauto.
    + apply findLabel_no_match in Hfind. rewrite Hfind.
      split; [congruence|intros [H _]; discriminate].
  - split; [congruence|intros [_ H]; discriminate].
Qed.

Lemma page_contribution_length (table : LabelTable) (part : jsstring) :
  List.length (Page.contribution toUpperCase table part) <= 1.
Proof.
  unfold Page.contribution.
  destruct (JS.truthy (partContent part)); [|simpl; lia].
  destruct (findLabel toUpperCase table (partTitle part)) as [[key style]|]; simpl; lia.
Qed.

(** The same for src/unnamed/part_001. *)
Lemma part001_parsePart_contribution (part : jsstring) (secs : list Part001.Section) :
  Part001.parsePart toUpperCase part secs
  = JS.Ok (secs ++ Part001.contribution toUpperCase part).
Proof.
  unfold Part001.parsePart, Part001.contribution, partTitle, partContent, partLines.
  destruct (JS.truthy (JS.trim part)) eqn:Hblank; simpl negb; cbv iota.
  - rewrite at_index_0_split. simpl JS.bind.
    destruct (JS.truthy (contentOfLines (JS.split NL (JS.trim part))));
      [reflexivity|now rewrite app_nil_r].
  - apply truthy_false in Hblank. rewrite Hblank. simpl.
    now rewrite app_nil_r.
Qed.

Lemma part001_parseSections_flat_map (md : jsstring) :
  Part001.parseSections toUpperCase md
  = JS.Ok (flat_map (Part001.contribution toUpperCase) (Re.split Re.headingMarker md)).
Proof.
  unfold Part001.parseSections.
  now rewrite (forOf_append _ _ _ _ part001_parsePart_contribution).
Qed.

Lemma part001_contribution_iff (part : jsstring) :
  Part001.contribution toUpperCase part <> [] <-> partContent part <> [].
Proof.
  unfold Part001.contribution. rewrite <- truthy_true.
  destruct (JS.truthy (partContent part)); split; congruence.
Qed.

(** src/unnamed/part_000: pushing the part at hand appends its contribution. *)
Lemma part000_pushCurrent_app (table : LabelTable) (st : Part000.Scan) :
  Part000.pushCurrent toUpperCase table st
  = Part000.sections st
    ++ Part000.contribution toUpperCase table
         (Part000.currentTitle st, Part000.currentContent st).
Proof.
  unfold Part000.contribution, Part000.pushCurrent. simpl.
  destruct (JS.truthy (Part000.currentTitle st) && _); [|now rewrite app_nil_r].
  destruct (findLabel toUpperCase table _) as [[key style]|]; [|now rewrite app_nil_r].
  destruct (JS.truthy _); [reflexivity|now rewrite app_nil_r].
Qed.

Lemma part000_scan_parts (table : LabelTable) (lines : list jsstring) :
  forall st,
    Part000.pushCurrent toUpperCase table
      (fold_left (Part000.scanLine toUpperCase table) lines st)
    = Part000.sections st
      ++ flat_map (Part000.contribution toUpperCase table)
           (Part000.headingParts (Part000.currentTitle st)
              (Part000.currentContent st) lines).
Proof.
  induction lines as [|line lines IH]; intros st; simpl.
  - rewrite part000_pushCurrent_app. now rewrite app_nil_r.
  - rewrite IH. unfold Part000.scanLine.
    destruct (Re.headerLine line) as [group1|]; simpl.
    + rewrite part000_pushCurrent_app. now rewrite <- app_assoc.
    + reflexivity.
Qed.

Lemma part000_parseSections_flat_map (table : LabelTable) (md : jsstring) :
  Part000.parseSectionsWith toUpperCase table md
  = flat_map (Part000.contribution toUpperCase table)
      (Part000.headingParts [] [] (JS.split NL md)).
Proof.
  unfold Part000.parseSectionsWith. now rewrite part000_scan_parts.
Qed.

Lemma part000_contribution_no_label (table : LabelTable) (part : jsstring * list jsstring) :
  matchesLabel toUpperCase table (fst part) = false ->
  Part000.contribution toUpperCase table part = [].
Proof.
  intros H. apply findLabel_no_match in H.
  unfold Part000.contribution, Part000.pushCurrent. simpl. rewrite H.
  now destruct (JS.truthy (fst part) && _).
Qed.

Lemma part000_contribution_length (table : LabelTable) (part : jsstring * list jsstring) :
  List.length (Part000.contribution toUpperCase table part) <= 1.
Proof.
  unfold Part000.contribution, Part000.pushCurrent. simpl.
  destruct (JS.truthy (fst part) && _); [|simpl; lia].
  destruct (findLabel toUpperCase table (fst part)) as [[key style]|]; [|simpl; lia].
  destruct (JS.truthy _); simpl; lia.
Qed.

End Classifier.

Lemma forallb_weaken (A : Type) (p q : A -> bool) (l : list A) :
  (forall x, p x = true -> q x = true) ->
  forallb p l = true -> forallb q l = true.
Proof.
  intros Himp H. apply forallb_forall. intros x Hx.
  apply Himp. now apply (proj1 (forallb_forall p l) H).
Qed.

Lemma no_label_for_empty_heading (toUpperCase : jsstring -> jsstring) :
  toUpperCase [] = [] ->
  matchesLabel toUpperCase Part000.SECTION_CONFIG [] = false.
Proof. intros H. unfold matchesLabel. rewrite H. reflexivity. Qed.


(** C1, as amended: in src/app/page.tsx and in part_000, when no candidate
    heading contains a category key (case-insensitively), parseSections
    returns the empty list and does not throw. The candidate headings of
    page.tsx are the first lines of the pieces of the split on the heading
    marker, the text before the first marker included; those of part_000
    are the texts of the header lines. *)
Theorem unlabelled_headings_give_no_section
    (toUpperCase : jsstring -> jsstring) (md : jsstring) :
  (forallb (fun part =>
              negb (matchesLabel toUpperCase Page.SECTION_CONFIG (partTitle part)))
     (Re.split Re.headingMarker md) = true ->
   Page.parseSections toUpperCase md = JS.Ok [])
  /\
  (forallb (fun part =>
              negb (matchesLabel toUpperCase Part000.SECTION_CONFIG (fst part)))
     (Part000.headingParts [] [] (JS.split NL md)) = true ->
   Part000.parseSections toUpperCase md = []).
Proof.
  split; intros H.
  - unfold Page.parseSections. rewrite page_parseSections_flat_map. f_equal.
    apply flat_map_all_nil. revert H. apply forallb_weaken. intros part Hpart.
    apply negb_true_iff in Hpart. apply findLabel_no_match in Hpart.
    unfold Page.contribution. rewrite Hpart.
    now destruct (JS.truthy (partContent part)).
  - unfold Part000.parseSections. rewrite part000_parseSections_flat_map.
    apply flat_map_all_nil. revert H. apply forallb_weaken. intros part Hpart.
    apply negb_true_iff in Hpart.
    now rewrite part000_contribution_no_label.
Qed.

Lemma unlabelled_headings_give_no_section_witness :
  Page.parseSections JS.asciiUpper (js "### NOTES" ++ [NL] ++ js "hello") = JS.Ok []
  /\ Part000.parseSections JS.asciiUpper (js "### NOTES" ++ [NL] ++ js "hello") = [].
Proof.
  split.
  - apply (proj1 (unlabelled_headings_give_no_section JS.asciiUpper
                    (js "### NOTES" ++ [NL] ++ js "hello"))).
    reflexivity.
  - apply (proj2 (unlabelled_headings_give_no_section JS.asciiUpper
                    (js "### NOTES" ++ [NL] ++ js "hello"))).
    reflexivity.
Defined.

(** C1 fails on part_001: the heading NOTES contains no category key, and
    the part is kept, under the fallback icon. *)
Lemma part001_unlabelled_heading_kept :
  forallb (fun part =>
             negb (matchesLabel JS.asciiUpper Part001.sectionMap (partTitle part)))
    (Re.split Re.headingMarker (js "### NOTES" ++ [NL] ++ js "hello")) = true
  /\ Part001.parseSections JS.asciiUpper (js "### NOTES" ++ [NL] ++ js "hello")
     = JS.Ok [Part001.mkSection (js "NOTES") (js "hello") Part001.defaultIcon]
  /\ Part001.parseSections JS.asciiUpper (js "### NOTES" ++ [NL] ++ js "hello")
     <> JS.Ok [].
Proof. repeat split; [reflexivity..|discriminate]. Qed.

(** C2, as amended: in src/app/page.tsx and in part_000 the output is the
    contributions of the heading-delimited parts in order, each part
    contributing at most one section, and it contributes one exactly when
    its heading contains a category key and its body is not empty after
    trimming. In part_001 a part contributes exactly when its body is not
    empty after trimming, whatever its heading. *)
Theorem part_contributes_iff
    (toUpperCase : jsstring -> jsstring) (upper_nil : toUpperCase [] = [])
    (md : jsstring) :
  (Page.parseSections toUpperCase md
   = JS.Ok (flat_map (Page.contribution toUpperCase Page.SECTION_CONFIG)
              (Re.split Re.headingMarker md))
   /\ forall part,
        List.length (Page.contribution toUpperCase Page.SECTION_CONFIG part) <= 1
        /\ (Page.contribution toUpperCase Page.SECTION_CONFIG part <> [] <->
            matchesLabel toUpperCase Page.SECTION_CONFIG (partTitle part) = true
            /\ partContent part <> []))
  /\
  (Part000.parseSections toUpperCase md
   = flat_map (Part000.contribution toUpperCase Part000.SECTION_CONFIG)
       (Part000.headingParts [] [] (JS.split NL md))
   /\ forall heading body,
        List.length
          (Part000.contribution toUpperCase Part000.SECTION_CONFIG (heading, body)) <= 1
        /\ (Part000.contribution toUpperCase Part000.SECTION_CONFIG (heading, body) <> [] <->
            matchesLabel toUpperCase Part000.SECTION_CONFIG heading = true
            /\ Part000.bodyOf body <> []))
  /\
  (Part001.parseSections toUpperCase md
   = JS.Ok (flat_map (Part001.contribution toUpperCase) (Re.split Re.headingMarker md))
   /\ forall part,
        Part001.contribution toUpperCase part <> [] <-> partContent part <> []).
Proof.
  split; [|split].
  - split; [apply page_parseSections_flat_map|].
    intros part. split;
      [apply page_contribution_length|apply page_contribution_iff].
  - split; [apply part000_parseSections_flat_map|].
    intros heading body. split; [apply part000_contribution_length|].
    destruct (matchesLabel toUpperCase Part000.SECTION_CONFIG heading) eqn:Hlabel.
    + assert (Hheading : JS.truthy heading = true).
      { destruct heading; [|reflexivity].
        rewrite (no_label_for_empty_heading _ upper_nil) in Hlabel. discriminate. }
      apply findLabel_matches in Hlabel as [[key style] Hfind].
      unfold Part000.contribution, Part000.pushCurrent, Part000.bodyOf.
      cbn [fst snd Part000.currentTitle Part000.currentContent Part000.sections].
      rewrite Hheading, Hfind. rewrite <- truthy_true.
      destruct body as [|line body]; cbn [List.length Nat.ltb Nat.leb andb app].
      * split; [congruence|intros [_ H]; discriminate].
      * destruct (JS.truthy (JS.trim (JS.join [NL] (line :: body)))).
        -- split; [now split|intros _; discriminate].
        -- split; [congruence|intros [_ H]; discriminate].
    + rewrite part000_contribution_no_label by exact Hlabel.
      split; [congruence|intros [H _]; discriminate].
  - split; [apply part001_parseSections_flat_map|].
    intros part. apply part001_contribution_iff.
Qed.

Lemma part_contributes_iff_witness :
  Page.parseSections JS.asciiUpper (js "### Community Pulse" ++ [NL] ++ js "busy")
  = JS.Ok (flat_map (Page.contribution JS.asciiUpper Page.SECTION_CONFIG)
             (Re.split Re.headingMarker (js "### Community Pulse" ++ [NL] ++ js "busy"))).
Proof.
  exact (proj1 (proj1 (part_contributes_iff JS.asciiUpper eq_refl
                         (js "### Community Pulse" ++ [NL] ++ js "busy")))).
Defined.

(** C2 fails on part_001: the heading NOTES contains no category key, and
    its part contributes a section all the same. *)
Lemma part001_contributes_without_label :
  matchesLabel JS.asciiUpper Part001.sectionMap
    (partTitle (js "NOTES" ++ [NL] ++ js "hello")) = false
  /\ Re.split Re.headingMarker (js "### NOTES" ++ [NL] ++ js "hello")
     = [ []; js "NOTES" ++ [NL] ++ js "hello" ]
  /\ Part001.parseSections JS.asciiUpper (js "### NOTES" ++ [NL] ++ js "hello")
     = JS.Ok [Part001.mkSection (js "NOTES") (js "hello") Part001.defaultIcon].
Proof. repeat split; reflexivity. Qed.



(** A heading with two keys in it: the later-declared key comes first in
    the text and the earlier-declared one still wins. *)
Example two_keys_in_one_heading :
  Page.parseSections JS.asciiUpper
    (js "### Key Developments in the Community Pulse" ++ [NL] ++ js "busy")
  = JS.Ok [mkSection (js "COMMUNITY PULSE") (js "busy")
             [0xD83D; 0xDCE1]%N (js "from-amber-500/10 to-transparent")]
  /\ Part000.parseSections JS.asciiUpper
       (js "## Key Developments in the Community Pulse" ++ [NL] ++ js "busy")
     = [mkSection (js "COMMUNITY PULSE") (js "busy")
          [0xD83D; 0xDCE1]%N (js "from-amber-500/10 to-transparent")].
Proof. split; reflexivity. Qed.

(** C7: on every input parseSections of src/app/page.tsx returns a list and
    does not throw, and formatBullets gives one entry per line of its
    input, a block or null. Stray markers give the empty section list, and
    an unmatched bold marker stays in the text as it is. *)
Theorem renderer_never_throws (toUpperCase : jsstring -> jsstring) (input : jsstring) :
  (exists secs, Page.parseSections toUpperCase input = JS.Ok secs)
  /\ List.length (Page.formatBullets input) = List.length (JS.split NL input)
  /\ Page.parseSections toUpperCase (js "**#* ###") = JS.Ok []
  /\ Page.formatBullets (js "a **b # <")
     = [Some (Paragraph 0 Page.paragraphClass (js "a **b # <"))].
Proof.
  split; [|split; [|split; reflexivity]].
  - eexists. unfold Page.parseSections. apply page_parseSections_flat_map.
  - unfold Page.formatBullets, JS.mapi. apply mapi_from_length.
Qed.

(** ** The split on the heading marker *)

Lemma takeWhile_app_stop (p : char -> bool) (a r : jsstring) :
  forallb p a = true ->
  match r with [] => true | x :: _ => negb (p x) end = true ->
  JS.takeWhile p (a ++ r) = a /\ JS.dropWhile p (a ++ r) = r.
Proof.
  intros Ha Hr. induction a as [|c a IH]; simpl in *.
  - destruct r as [|x r]; simpl; [now split|].
    apply negb_true_iff in Hr. now rewrite Hr.
  - apply andb_true_iff in Ha as [Hc Ha]. rewrite Hc.
    destruct (IH Ha) as [IH1 IH2]. now rewrite IH1, IH2.
Qed.

Lemma headingMarker_other (c : char) (s : jsstring) :
  (c =? ch "#")%N = false -> Re.headingMarker (c :: s) = None.
Proof.
  intros H. unfold Re.headingMarker.
  change (js "###") with [ch "#"; ch "#"; ch "#"]. cbn [JS.startsWith].
  now rewrite N.eqb_sym, H.
Qed.

Lemma split_go_skip (m : jsstring -> option nat) (t cur rest : jsstring) :
  Re.split_go m (List.length t) cur (t ++ rest) = Re.split_go m 0 cur rest.
Proof. induction t as [|c t IH]; simpl; [reflexivity|exact IH]. Qed.

Lemma split_go_noHash (pre rest : jsstring) :
  noHash pre = true ->
  forall cur,
    Re.split_go Re.headingMarker 0 cur (pre ++ rest)
    = Re.split_go Re.headingMarker 0 (rev pre ++ cur) rest.
Proof.
  induction pre as [|c pre IH]; intros Hpre cur; [reflexivity|].
  simpl in Hpre. apply andb_true_iff in Hpre as [Hc Hpre].
  apply negb_true_iff in Hc.
  cbn [app Re.split_go]. rewrite (headingMarker_other c _ Hc).
  rewrite (IH Hpre). cbn [rev]. now rewrite <- app_assoc.
Qed.

Lemma split_go_marker (ws rest cur : jsstring) :
  ws <> [] -> forallb JS.isSpace ws = true -> startsWithSpace rest = false ->
  Re.split_go Re.headingMarker 0 cur (js "###" ++ ws ++ rest)
  = rev cur :: Re.split_go Re.headingMarker 0 [] rest.
Proof.
  intros Hne Hws Hrest.
  assert (Hstop : match rest with [] => true | x :: _ => negb (JS.isSpace x) end = true).
  { destruct rest; [reflexivity|]. simpl in Hrest. now rewrite Hrest. }
  destruct (takeWhile_app_stop JS.isSpace ws rest Hws Hstop) as [Htake _].
  change (js "###" ++ ws ++ rest)
    with (ch "#" :: [ch "#"; ch "#"] ++ ws ++ rest).
  cbn [Re.split_go].
  assert (Hm : Re.headingMarker (ch "#" :: [ch "#"; ch "#"] ++ ws ++ rest)
               = Some (S (List.length ([ch "#"; ch "#"] ++ ws)))).
  { unfold Re.headingMarker.
    change (JS.startsWith (ch "#" :: [ch "#"; ch "#"] ++ ws ++ rest) (js "###"))
      with true.
    cbv iota.
    change (skipn 3 (ch "#" :: [ch "#"; ch "#"] ++ ws ++ rest)) with (ws ++ rest).
    rewrite Htake. destruct ws; [contradiction|reflexivity]. }
  rewrite Hm. f_equal.
  rewrite app_assoc. apply split_go_skip.
Qed.

Lemma split_before_marker (pre ws rest : jsstring) :
  noHash pre = true ->
  ws <> [] -> forallb JS.isSpace ws = true -> startsWithSpace rest = false ->
  Re.split Re.headingMarker (pre ++ js "###" ++ ws ++ rest)
  = pre :: Re.split Re.headingMarker rest.
Proof.
  intros Hpre Hne Hws Hrest. unfold Re.split.
  rewrite (split_go_noHash pre _ Hpre), (split_go_marker ws rest _ Hne Hws Hrest).
  now rewrite app_nil_r, rev_involutive.
Qed.

Lemma split_noHash (md : jsstring) :
  noHash md = true -> Re.split Re.headingMarker md = [md].
Proof.
  intros H. unfold Re.split.
  rewrite <- (app_nil_r md) at 1. rewrite (split_go_noHash md [] H).
  cbn [Re.split_go]. now rewrite app_nil_r, rev_involutive.
Qed.

Lemma split_go_noMarker (pre tail : jsstring) :
  noMarkerStarts pre tail = true ->
  forall cur,
    Re.split_go Re.headingMarker 0 cur (pre ++ tail)
    = Re.split_go Re.headingMarker 0 (rev pre ++ cur) tail.
Proof.
  induction pre as [|c pre IH]; intros Hpre cur; [reflexivity|].
  cbn [noMarkerStarts] in Hpre.
  destruct (Re.headingMarker ((c :: pre) ++ tail)) as [n|] eqn:Hm; [discriminate|].
  cbn [app Re.split_go]. cbn [app] in Hm. rewrite Hm.
  rewrite (IH Hpre). cbn [rev]. now rewrite <- app_assoc.
Qed.

Lemma split_before_first_marker (pre ws rest : jsstring) :
  noMarkerStarts pre (js "###" ++ ws ++ rest) = true ->
  ws <> [] -> forallb JS.isSpace ws = true -> startsWithSpace rest = false ->
  Re.split Re.headingMarker (pre ++ js "###" ++ ws ++ rest)
  = pre :: Re.split Re.headingMarker rest.
Proof.
  intros Hpre Hne Hws Hrest. unfold Re.split.
  rewrite (split_go_noMarker pre _ Hpre), (split_go_marker ws rest _ Hne Hws Hrest).
  now rewrite app_nil_r, rev_involutive.
Qed.

Lemma split_noMarker (md : jsstring) :
  noMarkerStarts md [] = true -> Re.split Re.headingMarker md = [md].
Proof.
  intros H. unfold Re.split.
  rewrite <- (app_nil_r md) at 1. rewrite (split_go_noMarker md [] H).
  cbn [Re.split_go]. now rewrite app_nil_r, rev_involutive.
Qed.

(** C9: in the two revisions that split on the heading marker
    (src/app/page.tsx and part_001) the text before the first marker,
    whatever it holds, is a part of its own, classified by its first line
    like any other; a text in which no marker starts is a single part, and
    some text without any hash gives a section. *)
Theorem text_before_first_marker_is_a_part
    (toUpperCase : jsstring -> jsstring)
    (upper_ascii : forall s, forallb JS.isAscii s = true ->
                             toUpperCase s = JS.asciiUpper s) :
  (forall pre ws rest,
     noMarkerStarts pre (js "###" ++ ws ++ rest) = true ->
     ws <> [] -> forallb JS.isSpace ws = true -> startsWithSpace rest = false ->
     Re.split Re.headingMarker (pre ++ js "###" ++ ws ++ rest)
     = pre :: Re.split Re.headingMarker rest
     /\ Page.parseSections toUpperCase (pre ++ js "###" ++ ws ++ rest)
        = JS.Ok (Page.contribution toUpperCase Page.SECTION_CONFIG pre
                 ++ flat_map (Page.contribution toUpperCase Page.SECTION_CONFIG)
                      (Re.split Re.headingMarker rest))
     /\ Part001.parseSections toUpperCase (pre ++ js "###" ++ ws ++ rest)
        = JS.Ok (Part001.contribution toUpperCase pre
                 ++ flat_map (Part001.contribution toUpperCase)
                      (Re.split Re.headingMarker rest)))
  /\
  (forall md,
     noMarkerStarts md [] = true ->
     Page.parseSections toUpperCase md
     = Page.parsePartWith toUpperCase Page.SECTION_CONFIG md []
     /\ Part001.parseSections toUpperCase md = Part001.parsePart toUpperCase md [])
  /\
  (exists md,
     noHash md = true /\ noMarkerStarts md [] = true
     /\ Page.parseSections toUpperCase md
        = JS.Ok [mkSection (js "KEY DEVELOPMENTS") (js "foo")
                   [0x26A1]%N (js "from-orange-500/10 to-transparent")]
     /\ Part001.parseSections toUpperCase md
        = JS.Ok [Part001.mkSection (js "KEY DEVELOPMENTS") (js "foo")
                   [0xE2; 0x161; 0xA1]%N]).
Proof.
  split; [|split].
  - intros pre ws rest Hpre Hne Hws Hrest.
    pose proof (split_before_first_marker pre ws rest Hpre Hne Hws Hrest) as Hsplit.
    split; [exact Hsplit|]. split.
    + unfold Page.parseSections.
      now rewrite page_parseSections_flat_map, Hsplit.
    + now rewrite part001_parseSections_flat_map, Hsplit.
  - intros md Hmd. split.
    + unfold Page.parseSections, Page.parseSectionsWith.
      rewrite (split_noMarker md Hmd). cbn [JS.forOf].
      now destruct (Page.parsePartWith toUpperCase Page.SECTION_CONFIG md []).
    + unfold Part001.parseSections.
      rewrite (split_noMarker md Hmd). cbn [JS.forOf].
      now destruct (Part001.parsePart toUpperCase md []).
  - exists (js "KEY DEVELOPMENTS" ++ [NL] ++ js "foo").
    split; [reflexivity|]. split; [reflexivity|]. split.
    + unfold Page.parseSections. rewrite page_parseSections_flat_map.
      rewrite split_noHash by reflexivity.
      cbn [flat_map]. unfold Page.contribution, findLabel.
      change (partTitle (js "KEY DEVELOPMENTS" ++ [NL] ++ js "foo"))
        with (js "KEY DEVELOPMENTS").
      rewrite upper_ascii by reflexivity. reflexivity.
    + rewrite part001_parseSections_flat_map.
      rewrite split_noHash by reflexivity.
      cbn [flat_map]. unfold Part001.contribution, Part001.iconFor.
      change (partTitle (js "KEY DEVELOPMENTS" ++ [NL] ++ js "foo"))
        with (js "KEY DEVELOPMENTS").
      rewrite upper_ascii by reflexivity. reflexivity.
Qed.

Lemma text_before_first_marker_is_a_part_witness :
  Re.split Re.headingMarker
    ((js "# KEY DEVELOPMENTS ##" ++ [NL] ++ js "C# notes ")
     ++ js "###" ++ js " " ++ js "NOTES")
  = [js "# KEY DEVELOPMENTS ##" ++ [NL] ++ js "C# notes "; js "NOTES"]
  /\ Page.parseSections JS.asciiUpper (js "## KEY DEVELOPMENTS" ++ [NL] ++ js "foo")
     = Page.parsePartWith JS.asciiUpper Page.SECTION_CONFIG
         (js "## KEY DEVELOPMENTS" ++ [NL] ++ js "foo") [].
Proof.
  split.
  - exact (proj1 (proj1 (text_before_first_marker_is_a_part JS.asciiUpper
                           (fun s _ => eq_refl))
                    (js "# KEY DEVELOPMENTS ##" ++ [NL] ++ js "C# notes ")
                    (js " ") (js "NOTES")
                    eq_refl ltac:(discriminate) eq_refl eq_refl)).
  - exact (proj1 (proj1 (proj2 (text_before_first_marker_is_a_part JS.asciiUpper
                                  (fun s _ => eq_refl)))
                    (js "## KEY DEVELOPMENTS" ++ [NL] ++ js "foo") eq_refl)).
Defined.

(** A preamble with hashes in it: its first line is the heading all the
    same, the hashes staying in the title. *)
Example preamble_with_hashes :
  Part001.parseSections JS.asciiUpper
    (js "## KEY DEVELOPMENTS" ++ [NL] ++ js "foo")
  = JS.Ok [Part001.mkSection (js "## KEY DEVELOPMENTS") (js "foo")
             [0xE2; 0x161; 0xA1]%N]
  /\ Page.parseSections JS.asciiUpper
       (js "## KEY DEVELOPMENTS" ++ [NL] ++ js "foo")
     = JS.Ok [mkSection (js "KEY DEVELOPMENTS") (js "foo")
                [0x26A1]%N (js "from-orange-500/10 to-transparent")].
Proof. split; reflexivity. Qed.

(** ** The number highlighter *)


Lemma replaceAll_go_skip (m : option char -> jsstring -> option (jsstring * nat))
    (t rest : jsstring) :
  forall prev,
    Re.replaceAll_go m (List.length t) prev (t ++ rest)
    = Re.replaceAll_go m 0 (prevAfter prev t) rest.
Proof.
  induction t as [|c t IH]; intros prev; [reflexivity|].
  cbn [List.length app Re.replaceAll_go]. apply IH.
Qed.

Lemma numberToken_not_nil (s : jsstring) : Re.numberToken s <> Some [].
Proof.
  destruct s as [|d s]; simpl; [discriminate|].
  destruct (JS.isDigit d); discriminate.
Qed.

Lemma numberToken_no_digit (c : char) (s : jsstring) :
  JS.isDigit c = false -> Re.numberToken (c :: s) = None.
Proof. intros H. simpl. now rewrite H. Qed.

(** The loops of [Re.split] and [Re.replaceAll] are written for patterns
    that take at least one code unit; the patterns of the source do. *)
Lemma matches_are_not_empty (openTag closeTag : jsstring) (prev : option char)
    (s : jsstring) :
  Re.headingMarker s <> Some 0
  /\ (forall out, Re.stars prev s <> Some (out, 0))
  /\ (forall out, Re.bold openTag closeTag prev s <> Some (out, 0))
  /\ (forall out, Re.number openTag closeTag prev s <> Some (out, 0)).
Proof.
  repeat split.
  - unfold Re.headingMarker. destruct (JS.startsWith s (js "###")); [|discriminate].
    destruct (JS.takeWhile JS.isSpace (skipn 3 s)); discriminate.
  - intros out. unfold Re.stars.
    destruct (JS.takeWhile (N.eqb (ch "*")) s); discriminate.
  - intros out. unfold Re.bold. destruct (JS.startsWith s (js "**")); [|discriminate].
    destruct (Re.lazyToStars (skipn 2 s)) as [[g n]|]; discriminate.
  - intros out. unfold Re.number. destruct (Re.guarded prev); [discriminate|].
    destruct (Re.numberToken s) as [tok|] eqn:Htok; [|discriminate].
    destruct tok; [now apply numberToken_not_nil in Htok|discriminate].
Qed.


(** Text without a digit is copied. *)
Lemma highlightFrom_noDigit (pre s : jsstring) :
  noDigit pre = true ->
  forall prev,
    highlightFrom prev (pre ++ s) = pre ++ highlightFrom (prevAfter prev pre) s.
Proof.
  induction pre as [|c pre IH]; intros Hpre prev; [reflexivity|].
  simpl in Hpre. apply andb_true_iff in Hpre as [Hc Hpre].
  apply negb_true_iff in Hc.
  unfold highlightFrom in *. cbn [app Re.replaceAll_go].
  unfold Re.number at 1. rewrite (numberToken_no_digit c _ Hc).
  destruct (Re.guarded prev); cbn [app]; f_equal; apply (IH Hpre).
Qed.









Lemma bold_no_star (prev : option char) (c : char) (s : jsstring) :
  (ch "*" =? c)%N = false -> Re.bold EM_OPEN SPAN_CLOSE prev (c :: s) = None.
Proof.
  intros H. unfold Re.bold. change (js "**") with [ch "*"; ch "*"].
  cbn [JS.startsWith]. now rewrite H.
Qed.

Lemma emphasize_from_noStar (pre s : jsstring) :
  noStar pre = true ->
  forall prev,
    Re.replaceAll_go (Re.bold EM_OPEN SPAN_CLOSE) 0 prev (pre ++ s)
    = pre ++ Re.replaceAll_go (Re.bold EM_OPEN SPAN_CLOSE) 0 (prevAfter prev pre) s.
Proof.
  induction pre as [|c pre IH]; intros Hpre prev; [reflexivity|].
  cbn [noStar forallb] in Hpre. apply andb_true_iff in Hpre as [Hc Hpre].
  apply negb_true_iff in Hc.
  cbn [app Re.replaceAll_go]. rewrite (bold_no_star prev c _ Hc).
  f_equal. apply (IH Hpre).
Qed.







(** ** The inline formatter on the lines of the specification *)

(** C5: the line [- **Revenue** grew 42%] gives one bullet block; its text
    holds Revenue in an emphasis span and 42% in a numeric span, and the
    bullet glyph is gone from its start. *)
Theorem revenue_line_is_bullet :
  Page.formatBullets (js "- **Revenue** grew 42%")
  = [Some (Bullet 0 Page.bulletClass
             (EM_OPEN ++ js "Revenue" ++ SPAN_CLOSE ++ js " grew "
              ++ NUM_OPEN ++ js "42%" ++ SPAN_CLOSE))]
  /\ forall b, In (Some b) (Page.formatBullets (js "- **Revenue** grew 42%")) ->
       isBulletBlock b = true
       /\ JS.includes (blockHtml b) (EM_OPEN ++ js "Revenue" ++ SPAN_CLOSE) = true
       /\ JS.includes (blockHtml b) (NUM_OPEN ++ js "42%" ++ SPAN_CLOSE) = true
       /\ JS.startsWith (blockHtml b) (js "-") = false.
Proof.
  split; [reflexivity|].
  intros b [Hb|[]]. injection Hb as <-. repeat split; reflexivity.
Qed.

Lemma revenue_line_is_bullet_witness :
  JS.startsWith
    (EM_OPEN ++ js "Revenue" ++ SPAN_CLOSE ++ js " grew "
     ++ NUM_OPEN ++ js "42%" ++ SPAN_CLOSE) (js "-") = false.
Proof.
  exact (proj2 (proj2 (proj2
           (proj2 revenue_line_is_bullet
              (Bullet 0 Page.bulletClass
                 (EM_OPEN ++ js "Revenue" ++ SPAN_CLOSE ++ js " grew "
                  ++ NUM_OPEN ++ js "42%" ++ SPAN_CLOSE))
              (or_introl eq_refl))))).
Defined.

(** The example of the specification: one heading with one line of body,
    in the three revisions. *)
Example key_developments_example :
  Page.parseSections JS.asciiUpper
    (js "### KEY DEVELOPMENTS" ++ [NL] ++ js "Something happened")
  = JS.Ok [mkSection (js "KEY DEVELOPMENTS") (js "Something happened")
             [0x26A1]%N (js "from-orange-500/10 to-transparent")]
  /\ Part000.parseSections JS.asciiUpper
       (js "### KEY DEVELOPMENTS" ++ [NL] ++ js "Something happened")
     = [mkSection (js "KEY DEVELOPMENTS") (js "Something happened")
          [0xD83D; 0xDD11]%N (js "from-orange-500/10 to-transparent")]
  /\ Part001.parseSections JS.asciiUpper
       (js "### KEY DEVELOPMENTS" ++ [NL] ++ js "Something happened")
     = JS.Ok [Part001.mkSection (js "KEY DEVELOPMENTS") (js "Something happened")
                [0xE2; 0x161; 0xA1]%N].
Proof. repeat split. Qed.

(** C6, as amended: in src/app/page.tsx and in part_000 the line
    [1. Ship the report] gives one bullet block with the text
    [Ship the report]: the ordinal is stripped and no span is added. In
    part_001 the ordinal is stripped as well and no span is added, and the
    block is a plain one: that revision makes bullets of dash and glyph
    lines only. *)
Theorem ordinal_line_stripped :
  Page.formatBullets (js "1. Ship the report")
  = [Some (Bullet 0 Page.bulletClass (js "Ship the report"))]
  /\ (forall large,
        Part000.formatBullets (js "1. Ship the report") large
        = [Some (Bullet 0 (Part000.textClass large) (js "Ship the report"))])
  /\ Part001.formatBullets (js "1. Ship the report")
     = [Some (Paragraph 0 Part001.pClass (js "Ship the report"))].
Proof. split; [reflexivity|]. split; [intros []; reflexivity|reflexivity]. Qed.

(** C6 fails on part_001: the block of the ordinal line is no bullet block. *)
Lemma part001_ordinal_line_is_plain :
  map (option_map isBulletBlock) (Part001.formatBullets (js "1. Ship the report"))
  = [Some false].
Proof. reflexivity. Qed.

(** ** No state kept between calls *)

Lemma setNth_last (A : Type) (h : list A) (x y : A) :
  PageHeap.setNth (List.length h) x (h ++ [y]) = h ++ [x].
Proof. induction h as [|z h IH]; simpl; [reflexivity|now rewrite IH]. Qed.

Lemma nth_error_last (A : Type) (h : list A) (y : A) :
  nth_error (h ++ [y]) (List.length h) = Some y.
Proof. induction h as [|z h IH]; simpl; [reflexivity|exact IH]. Qed.

(** One turn of the loop adds the contribution of the part to the array
    being filled, and touches nothing else. *)
Lemma heap_parsePart (toUpperCase : jsstring -> jsstring) (part : jsstring)
    (table : LabelTable) (h : list PageHeap.Obj) (items : list Section) :
  PageHeap.parsePart toUpperCase (List.length h) part
    (PageHeap.mkStore table (h ++ [PageHeap.SectionArray items]))
  = (JS.Ok tt,
     PageHeap.mkStore table
       (h ++ [PageHeap.SectionArray
                (items ++ Page.contribution toUpperCase table part)])).
Proof.
  unfold PageHeap.parsePart, Page.contribution, partTitle, partContent, partLines,
    findLabel.
  destruct (JS.truthy (JS.trim part)) eqn:Hblank; cbn [negb].
  - rewrite at_index_0_split.
    unfold PageHeap.bindM, PageHeap.lift, PageHeap.entries.
    cbn [PageHeap.SECTION_CONFIG].
    destruct (JS.truthy (contentOfLines (JS.split NL (JS.trim part)))).
    + destruct (find _ table) as [[key style]|].
      * unfold PageHeap.push. cbn [PageHeap.heap PageHeap.SECTION_CONFIG].
        now rewrite nth_error_last, setNth_last.
      * unfold PageHeap.ret. now rewrite app_nil_r.
    + unfold PageHeap.ret. now rewrite app_nil_r.
  - apply truthy_false in Hblank. rewrite Hblank. unfold PageHeap.ret.
    cbn. now rewrite app_nil_r.
Qed.

Lemma heap_forOf_parts (toUpperCase : jsstring -> jsstring) (table : LabelTable)
    (h : list PageHeap.Obj) (parts : list jsstring) :
  forall items,
    PageHeap.forOfM parts (PageHeap.parsePart toUpperCase (List.length h))
      (PageHeap.mkStore table (h ++ [PageHeap.SectionArray items]))
    = (JS.Ok tt,
       PageHeap.mkStore table
         (h ++ [PageHeap.SectionArray
                  (items ++ flat_map (Page.contribution toUpperCase table) parts)])).
Proof.
  induction parts as [|part parts IH]; intros items; cbn [PageHeap.forOfM flat_map].
  - unfold PageHeap.ret. now rewrite app_nil_r.
  - unfold PageHeap.bindM. rewrite heap_parsePart, IH. now rewrite app_assoc.
Qed.

(** A call of parseSections adds one array to the store and changes
    nothing that was there. *)
Lemma heap_parseSections (toUpperCase : jsstring -> jsstring) (md : jsstring)
    (st : PageHeap.Store) :
  PageHeap.parseSections toUpperCase md st
  = (JS.Ok (List.length (PageHeap.heap st)),
     PageHeap.mkStore (PageHeap.SECTION_CONFIG st)
       (PageHeap.heap st
        ++ [PageHeap.SectionArray
              (flat_map (Page.contribution toUpperCase (PageHeap.SECTION_CONFIG st))
                 (Re.split Re.headingMarker md))])).
Proof.
  unfold PageHeap.parseSections, PageHeap.bindM at 1, PageHeap.alloc.
  unfold PageHeap.bindM, PageHeap.ret.
  cbn [PageHeap.heap PageHeap.SECTION_CONFIG].
  now rewrite heap_forOf_parts.
Qed.

(** C8: parseSections and formatBullets of src/app/page.tsx keep no state.
    From any store, two calls of each on the same input leave the label
    table and every object that was there as they were, and add four new
    arrays: two with the same sections in the same order, the ones the
    label table of the store and the text determine, and two with the same
    blocks. *)
Theorem renderer_keeps_no_state
    (toUpperCase : jsstring -> jsstring) (md text : jsstring) (st : PageHeap.Store) :
  exists secs,
    Page.parseSectionsWith toUpperCase (PageHeap.SECTION_CONFIG st) md = JS.Ok secs
    /\ PageHeap.bindM (PageHeap.parseSections toUpperCase md) (fun first =>
       PageHeap.bindM (PageHeap.parseSections toUpperCase md) (fun second =>
       PageHeap.bindM (PageHeap.formatBullets text) (fun third =>
       PageHeap.bindM (PageHeap.formatBullets text) (fun fourth =>
       PageHeap.ret (first, second, third, fourth))))) st
       = (JS.Ok (List.length (PageHeap.heap st),
                 1 + List.length (PageHeap.heap st),
                 2 + List.length (PageHeap.heap st),
                 3 + List.length (PageHeap.heap st)),
          PageHeap.mkStore (PageHeap.SECTION_CONFIG st)
            (PageHeap.heap st
             ++ [PageHeap.SectionArray secs; PageHeap.SectionArray secs;
                 PageHeap.BlockArray (Page.formatBullets text);
                 PageHeap.BlockArray (Page.formatBullets text)])).
Proof.
  eexists. split; [apply page_parseSections_flat_map|].
  unfold PageHeap.bindM at 1. rewrite heap_parseSections.
  unfold PageHeap.bindM at 1. rewrite heap_parseSections.
  cbn [PageHeap.heap PageHeap.SECTION_CONFIG].
  unfold PageHeap.bindM, PageHeap.formatBullets, PageHeap.alloc, PageHeap.ret.
  cbn [PageHeap.heap PageHeap.SECTION_CONFIG].
  rewrite !length_app. cbn [List.length].
  rewrite <- !app_assoc. cbn [app].
  set (n := List.length (PageHeap.heap st)).
  replace (n + 1) with (1 + n) by lia.
  replace (1 + n + 1) with (2 + n) by lia.
  replace (2 + n + 1) with (3 + n) by lia.
  reflexivity.
Qed.

(** ** The action items *)

Lemma toggle_nth (toggle : ActionItem -> ActionItem) (prev : list ActionItem)
    (i : nat) (item : ActionItem) :
  nth_error prev i = Some item ->
  nth_error (map toggle prev) i = Some (toggle item).
Proof. intros H. now rewrite nth_error_map, H. Qed.

(** C10: toggleActionItem keeps the length and the order of the list; an
    item with another id is unchanged, and an item with the target id keeps
    its id and its text and has its completed flag negated. The text of the
    function is the same in src/app/page.tsx and in part_000. *)
Theorem toggle_changes_only_the_target (target : jsstring) (prev : list ActionItem) :
  List.length (Page.toggleActionItem target prev) = List.length prev
  /\ (forall i item,
        nth_error prev i = Some item ->
        exists item',
          nth_error (Page.toggleActionItem target prev) i = Some item'
          /\ id item' = id item
          /\ text item' = text item
          /\ (id item <> target -> item' = item)
          /\ (id item = target -> completed item' = negb (completed item)))
  /\ Part000.toggleActionItem target prev = Page.toggleActionItem target prev.
Proof.
  split; [apply length_map|]. split; [|reflexivity].
  intros i item Hitem. unfold Page.toggleActionItem.
  rewrite (toggle_nth _ prev i item Hitem).
  destruct (JS.eqb (id item) target) eqn:Heq.
  - apply eqb_eq in Heq. eexists. split; [reflexivity|].
    cbn [id text completed].
    split; [reflexivity|]. split; [reflexivity|].
    split; [intros Hne; contradiction|intros _; reflexivity].
  - exists item.
    split; [reflexivity|]. split; [reflexivity|]. split; [reflexivity|].
    split; [reflexivity|]. intros Hid.
    apply eqb_eq in Hid. congruence.
Qed.

Lemma toggle_changes_only_the_target_witness :
  exists item',
    nth_error (Page.toggleActionItem (js "b")
                 [mkItem (js "a") (js "call") false; mkItem (js "b") (js "mail") false]) 1
    = Some item'
    /\ id item' = js "b"
    /\ text item' = js "mail"
    /\ (js "b" <> js "b" -> item' = mkItem (js "b") (js "mail") false)
    /\ (js "b" = js "b" -> completed item' = true).
Proof.
  exact (proj1 (proj2 (toggle_changes_only_the_target (js "b")
                         [mkItem (js "a") (js "call") false;
                          mkItem (js "b") (js "mail") false]))
           1 (mkItem (js "b") (js "mail") false) eq_refl).
Defined.

(* ================================================================== *)
(** * Part III: further properties of the code *)
(* ================================================================== *)

(** ** White space *)

Lemma takeWhile_dropWhile (p : char -> bool) (s : jsstring) :
  JS.takeWhile p s ++ JS.dropWhile p s = s.
Proof.
  induction s as [|c s IH]; simpl; [reflexivity|].
  destruct (p c); simpl; [now rewrite IH|reflexivity].
Qed.

Lemma takeWhile_all (p : char -> bool) (s : jsstring) :
  forallb p (JS.takeWhile p s) = true.
Proof.
  induction s as [|c s IH]; simpl; [reflexivity|].
  destruct (p c) eqn:Hc; simpl; [now rewrite Hc|reflexivity].
Qed.

Lemma dropWhile_stops (p : char -> bool) (s : jsstring) :
  match JS.dropWhile p s with [] => true | x :: _ => negb (p x) end = true.
Proof.
  induction s as [|c s IH]; simpl; [reflexivity|].
  destruct (p c) eqn:Hc; [exact IH|]. simpl. now rewrite Hc.
Qed.

Lemma dropWhile_id (p : char -> bool) (s : jsstring) :
  match s with [] => true | x :: _ => negb (p x) end = true ->
  JS.dropWhile p s = s.
Proof.
  destruct s as [|c s]; simpl; [reflexivity|].
  intros H. apply negb_true_iff in H. now rewrite H.
Qed.

Lemma dropWhile_all (p : char -> bool) (s : jsstring) :
  forallb p s = true -> JS.dropWhile p s = [].
Proof.
  induction s as [|c s IH]; simpl; [reflexivity|].
  intros H. apply andb_true_iff in H as [Hc Hs]. rewrite Hc. now apply IH.
Qed.

Lemma forallb_rev (A : Type) (p : A -> bool) (l : list A) :
  forallb p (rev l) = forallb p l.
Proof.
  induction l as [|a l IH]; simpl; [reflexivity|].
  rewrite forallb_app, IH. simpl. rewrite andb_true_r. apply andb_comm.
Qed.

(** [trimEnd] cuts a run of white space off the end. *)
Lemma trimEnd_split (s : jsstring) :
  exists r, s = JS.trimEnd s ++ r /\ forallb JS.isSpace r = true.
Proof.
  exists (rev (JS.takeWhile JS.isSpace (rev s))). split.
  - unfold JS.trimEnd. rewrite <- rev_app_distr, takeWhile_dropWhile.
    now rewrite rev_involutive.
  - rewrite forallb_rev. apply takeWhile_all.
Qed.

Lemma trim_split (s : jsstring) :
  exists l r,
    s = l ++ JS.trim s ++ r
    /\ forallb JS.isSpace l = true /\ forallb JS.isSpace r = true.
Proof.
  destruct (trimEnd_split (JS.trimStart s)) as (r & Hr & Hspace).
  exists (JS.takeWhile JS.isSpace s), r. split; [|split].
  - unfold JS.trim. rewrite <- Hr. unfold JS.trimStart.
    now rewrite takeWhile_dropWhile.
  - apply takeWhile_all.
  - exact Hspace.
Qed.

Lemma trim_endsClean (s : jsstring) : endsClean (JS.trim s) = true.
Proof.
  unfold endsClean, JS.trim, JS.trimEnd, startsClean. rewrite rev_involutive.
  apply dropWhile_stops.
Qed.

Lemma trim_startsClean (s : jsstring) : startsClean (JS.trim s) = true.
Proof.
  destruct (trimEnd_split (JS.trimStart s)) as (r & Hr & _).
  pose proof (dropWhile_stops JS.isSpace s) as Hstop.
  fold (JS.trimStart s) in Hstop. unfold JS.trim.
  destruct (JS.trimEnd (JS.trimStart s)) as [|c u]; [reflexivity|].
  rewrite Hr in Hstop. exact Hstop.
Qed.

Lemma trim_clean (s : jsstring) :
  startsClean s = true -> endsClean s = true -> JS.trim s = s.
Proof.
  intros Hstart Hend. unfold JS.trim, JS.trimStart, JS.trimEnd.
  rewrite (dropWhile_id JS.isSpace s Hstart).
  rewrite (dropWhile_id JS.isSpace (rev s) Hend). apply rev_involutive.
Qed.

Lemma trim_idempotent (s : jsstring) : JS.trim (JS.trim s) = JS.trim s.
Proof. apply trim_clean; [apply trim_startsClean|apply trim_endsClean]. Qed.

Lemma trim_blank (s : jsstring) :
  forallb JS.isSpace s = true -> JS.trim s = [].
Proof.
  intros H. unfold JS.trim, JS.trimStart. now rewrite (dropWhile_all _ _ H).
Qed.

(** ** The action items, further *)

Lemma toggle_keeps_ids (target : jsstring) (item : ActionItem) :
  id (if JS.eqb (id item) target
      then mkItem (id item) (text item) (negb (completed item)) else item)
  = id item.
Proof. now destruct (JS.eqb (id item) target). Qed.

Lemma eqb_refl (a : jsstring) : JS.eqb a a = true.
Proof. now apply eqb_eq. Qed.

Lemma eqb_neq (a b : jsstring) : JS.eqb a b = false <-> a <> b.
Proof.
  unfold JS.eqb. destruct (list_eq_dec N.eq_dec a b); split; congruence.
Qed.

Lemma delete_without_target (target : jsstring) (prev : list ActionItem) :
  Forall (fun item => id item <> target) prev ->
  Page.deleteActionItem target prev = prev.
Proof.
  intros Hall. unfold Page.deleteActionItem.
  induction Hall as [|item prev Hitem Hall IH]; [reflexivity|].
  simpl. apply eqb_neq in Hitem. rewrite Hitem. simpl. now rewrite IH.
Qed.

(** X1: deleteActionItem leaves no item with the target id, keeps the other
    items in their order, and changes nothing when no item has that id;
    the items removed are the ones counted with the target id. *)
Theorem delete_removes_the_target (target : jsstring) (prev : list ActionItem) :
  Forall (fun item => id item <> target) (Page.deleteActionItem target prev)
  /\ (forall other,
        other <> target ->
        filter (fun item => JS.eqb (id item) other) (Page.deleteActionItem target prev)
        = filter (fun item => JS.eqb (id item) other) prev)
  /\ (Forall (fun item => id item <> target) prev ->
      Page.deleteActionItem target prev = prev)
  /\ List.length (Page.deleteActionItem target prev)
     + List.length (filter (fun item => JS.eqb (id item) target) prev)
     = List.length prev
  /\ Part000.deleteActionItem target prev = Page.deleteActionItem target prev.
Proof.
  unfold Part000.deleteActionItem, Page.deleteActionItem.
  split; [|split; [|split; [|split; [|reflexivity]]]].
  - apply Forall_forall. intros item Hin. apply filter_In in Hin as [_ Hid].
    apply negb_true_iff in Hid. now apply eqb_neq.
  - intros other Hother. induction prev as [|item prev IH]; [reflexivity|].
    simpl. destruct (JS.eqb (id item) target) eqn:Ht; simpl.
    + apply eqb_eq in Ht.
      assert (Hno : JS.eqb (id item) other = false)
        by (apply eqb_neq; congruence).
      now rewrite Hno.
    + destruct (JS.eqb (id item) other); [now rewrite IH|exact IH].
  - apply delete_without_target.
  - induction prev as [|item prev IH]; [reflexivity|].
    simpl. destruct (JS.eqb (id item) target); simpl; lia.
Qed.

Lemma delete_removes_the_target_witness :
  Page.deleteActionItem (js "7")
    [mkItem (js "1") (js "call") false; mkItem (js "2") (js "mail") true]
  = [mkItem (js "1") (js "call") false; mkItem (js "2") (js "mail") true].
Proof.
  apply (proj1 (proj2 (proj2 (delete_removes_the_target (js "7")
           [mkItem (js "1") (js "call") false; mkItem (js "2") (js "mail") true])))).
  repeat constructor; discriminate.
Defined.

(** X2: toggling the same id twice gives the list back, and a toggle
    commutes with a delete: the toggle changes no id. *)
Theorem toggle_is_an_involution (target other : jsstring) (prev : list ActionItem) :
  Page.toggleActionItem target (Page.toggleActionItem target prev) = prev
  /\ Page.deleteActionItem other (Page.toggleActionItem target prev)
     = Page.toggleActionItem target (Page.deleteActionItem other prev)
  /\ Page.deleteActionItem target (Page.toggleActionItem target prev)
     = Page.deleteActionItem target prev.
Proof.
  unfold Page.toggleActionItem, Page.deleteActionItem. split; [|split].
  - induction prev as [|[i t c] prev IH]; [reflexivity|].
    cbn [map id text completed]. rewrite IH.
    destruct (JS.eqb i target) eqn:Hi; cbn [id text completed]; rewrite Hi;
      [now rewrite negb_involutive|reflexivity].
  - induction prev as [|item prev IH]; [reflexivity|].
    cbn [map filter]. rewrite toggle_keeps_ids.
    destruct (JS.eqb (id item) other); cbn [negb map]; now rewrite IH.
  - induction prev as [|item prev IH]; [reflexivity|].
    cbn [map filter]. rewrite toggle_keeps_ids.
    destruct (JS.eqb (id item) target); cbn [negb]; now rewrite IH.
Qed.

Lemma toggle_without_target (target : jsstring) (prev : list ActionItem) :
  Forall (fun item => id item <> target) prev ->
  Page.toggleActionItem target prev = prev.
Proof.
  intros Hall. unfold Page.toggleActionItem.
  induction Hall as [|item prev Hitem Hall IH]; [reflexivity|].
  simpl. apply eqb_neq in Hitem. now rewrite Hitem, IH.
Qed.

Lemma remaining_cons (item : ActionItem) (items : list ActionItem) :
  remaining (item :: items)
  = (if completed item then 0 else 1) + remaining items.
Proof. unfold remaining. simpl. now destruct (completed item). Qed.

(** X3: when the ids are distinct, toggling the id of a listed item moves
    the count of remaining items by exactly one, down for an open item and
    up for a completed one; an id that is not listed changes nothing. *)
Theorem toggle_moves_remaining_by_one (target : jsstring) (prev : list ActionItem) :
  (Forall (fun item => id item <> target) prev ->
   Page.toggleActionItem target prev = prev)
  /\
  (NoDup (map id prev) ->
   forall item,
     In item prev -> id item = target ->
     if completed item
     then remaining (Page.toggleActionItem target prev) = S (remaining prev)
     else S (remaining (Page.toggleActionItem target prev)) = remaining prev).
Proof.
  split; [apply toggle_without_target|].
  induction prev as [|x prev IH]; intros Hnodup item Hin Hid; [contradiction|].
  cbn [map] in Hnodup. apply NoDup_cons_iff in Hnodup as [Hfresh Hnodup].
  destruct Hin as [->|Hin].
  - assert (Hrest : Forall (fun other => id other <> target) prev).
    { apply Forall_forall. intros other Hother Heq. apply Hfresh.
      rewrite Hid, <- Heq. now apply in_map. }
    change (Page.toggleActionItem target (item :: prev))
      with ((if JS.eqb (id item) target
             then mkItem (id item) (text item) (negb (completed item)) else item)
            :: Page.toggleActionItem target prev).
    rewrite (toggle_without_target target prev Hrest).
    rewrite (proj2 (eqb_eq (id item) target) Hid), !remaining_cons.
    cbn [completed]. destruct (completed item); simpl; lia.
  - assert (Hx : id x <> target).
    { intros Heq. apply Hfresh. rewrite Heq, <- Hid. now apply in_map. }
    change (Page.toggleActionItem target (x :: prev))
      with ((if JS.eqb (id x) target
             then mkItem (id x) (text x) (negb (completed x)) else x)
            :: Page.toggleActionItem target prev).
    rewrite (proj2 (eqb_neq (id x) target) Hx), !remaining_cons.
    specialize (IH Hnodup item Hin Hid).
    destruct (completed item); lia.
Qed.

Lemma toggle_moves_remaining_by_one_witness :
  S (remaining (Page.toggleActionItem (js "2")
                  [mkItem (js "1") (js "call") false; mkItem (js "2") (js "mail") false]))
  = remaining [mkItem (js "1") (js "call") false; mkItem (js "2") (js "mail") false].
Proof.
  refine (proj2 (toggle_moves_remaining_by_one (js "2")
            [mkItem (js "1") (js "call") false; mkItem (js "2") (js "mail") false])
            _ (mkItem (js "2") (js "mail") false) _ eq_refl).
  - repeat constructor; simpl; intuition discriminate.
  - right. left. reflexivity.
Defined.

Lemma tidy_trim (input : jsstring) :
  JS.truthy (JS.trim input) = true -> tidy (JS.trim input) = true.
Proof.
  intros H. unfold tidy. rewrite H, trim_idempotent. apply eqb_refl.
Qed.

(** X4: the form adds nothing for a blank input and leaves the field as it
    is; otherwise it clears the field and appends one open item with the
    trimmed text, the earlier items untouched. So every text stored through
    the form is non-empty and free of outer white space, and toggling and
    deleting keep it so. The same holds for handleAddAction of part_000. *)
Theorem submit_keeps_items_tidy (now : Z) (input : jsstring) (items : list ActionItem) :
  (JS.trim input = [] -> Page.handleSubmit now input items = (input, items))
  /\ (JS.trim input <> [] ->
      Page.handleSubmit now input items
      = ([], items ++ [mkItem (JS.numberToString now) (JS.trim input) false]))
  /\ (Forall (fun item => tidy (text item) = true) items ->
      Forall (fun item => tidy (text item) = true)
        (snd (Page.handleSubmit now input items))
      /\ (forall target,
            Forall (fun item => tidy (text item) = true)
              (Page.toggleActionItem target items)
            /\ Forall (fun item => tidy (text item) = true)
                 (Page.deleteActionItem target items)))
  /\ Part000.handleAddAction now input items = Page.handleSubmit now input items.
Proof.
  unfold Page.handleSubmit, Page.addActionItem, appendItem.
  split; [|split; [|split; [|reflexivity]]].
  - intros H. now rewrite H.
  - intros H. apply truthy_true in H. now rewrite H.
  - intros Hall. split; [|intros target; split].
    + destruct (JS.truthy (JS.trim input)) eqn:Htrim; simpl; [|exact Hall].
      apply Forall_app. split; [exact Hall|].
      constructor; [|constructor]. now apply tidy_trim.
    + unfold Page.toggleActionItem. apply Forall_forall. intros item Hin.
      apply in_map_iff in Hin as (old & <- & Hold).
      pose proof (proj1 (Forall_forall _ items) Hall old Hold) as Htidy.
      now destruct (JS.eqb (id old) target).
    + unfold Page.deleteActionItem. apply Forall_forall. intros item Hin.
      apply filter_In in Hin as [Hin _].
      exact (proj1 (Forall_forall _ items) Hall item Hin).
Qed.

Lemma submit_keeps_items_tidy_witness :
  Page.handleSubmit 1700000000000 (js "  call Ana ") []
  = ([], [mkItem (js "1700000000000") (js "call Ana") false])
  /\ Page.handleSubmit 1700000000000 (js "   ") [] = (js "   ", []).
Proof.
  split.
  - apply (proj1 (proj2 (submit_keeps_items_tidy 1700000000000 (js "  call Ana ") []))).
    vm_compute. discriminate.
  - apply (proj1 (submit_keeps_items_tidy 1700000000000 (js "   ") [])).
    reflexivity.
Defined.

(** The decimal notation tells whole numbers apart. *)
Lemma js_injective (a b : string) : js a = js b -> a = b.
Proof.
  unfold js. intros H.
  rewrite <- (string_of_list_ascii_of_string a), <- (string_of_list_ascii_of_string b).
  f_equal.
  assert (Hback : forall l, map ascii_of_N (map N_of_ascii l) = l).
  { induction l as [|x l IH]; simpl; [reflexivity|].
    now rewrite ascii_N_embedding, IH. }
  rewrite <- (Hback (list_ascii_of_string a)), <- (Hback (list_ascii_of_string b)).
  now rewrite H.
Qed.

Lemma numberToString_injective (a b : Z) :
  JS.numberToString a = JS.numberToString b -> a = b.
Proof.
  unfold JS.numberToString. intros H. apply js_injective in H.
  assert (Hint : forall z, NilZero.int_of_string (NilZero.string_of_int (Z.to_int z))
                           = Some (Z.to_int z)).
  { intros z. apply NilZero.isi; destruct z; simpl; try discriminate;
      intros Heq; injection Heq; apply DecimalPos.Unsigned.to_uint_nonnil. }
  pose proof (Hint a) as Ha. rewrite H, Hint in Ha.
  injection Ha as Ha. rewrite <- (DecimalZ.of_to a), <- (DecimalZ.of_to b).
  now rewrite Ha.
Qed.

(** X5: the id of a new item is the clock reading, so items added at
    different readings get different ids, and an id that is new to the list
    keeps the ids distinct. Two items added at the same reading share their
    id: one toggle completes both and one delete removes both. *)
Theorem ids_come_from_the_clock (now : Z) (a b : jsstring) (items : list ActionItem) :
  (forall later, later <> now -> JS.numberToString later <> JS.numberToString now)
  /\
  (NoDup (map id items) ->
   ~ In (JS.numberToString now) (map id items) ->
   NoDup (map id (Page.addActionItem now a items)))
  /\
  (Forall (fun item => id item <> JS.numberToString now) items ->
   Page.toggleActionItem (JS.numberToString now)
     (Page.addActionItem now b (Page.addActionItem now a items))
   = items ++ [mkItem (JS.numberToString now) a true;
               mkItem (JS.numberToString now) b true]
   /\ Page.deleteActionItem (JS.numberToString now)
        (Page.addActionItem now b (Page.addActionItem now a items))
      = items).
Proof.
  split; [|split].
  - intros later Hlater Heq. now apply numberToString_injective in Heq.
  - intros Hnodup Hfresh. unfold Page.addActionItem, appendItem.
    rewrite map_app. cbn [map id].
    apply NoDup_rev in Hnodup. rewrite <- (rev_involutive (map id items ++ _)).
    apply NoDup_rev. rewrite rev_app_distr. cbn [rev app].
    constructor; [|exact Hnodup]. now rewrite <- in_rev.
  - intros Hall. unfold Page.addActionItem, appendItem. rewrite <- app_assoc.
    cbn [app]. split.
    + unfold Page.toggleActionItem. rewrite map_app.
      fold (Page.toggleActionItem (JS.numberToString now) items).
      rewrite (toggle_without_target _ items Hall).
      cbn [map id text completed]. now rewrite eqb_refl.
    + unfold Page.deleteActionItem. rewrite filter_app.
      fold (Page.deleteActionItem (JS.numberToString now) items).
      rewrite (delete_without_target _ items Hall).
      cbn [filter id]. rewrite eqb_refl. cbn [negb]. apply app_nil_r.
Qed.

Lemma ids_come_from_the_clock_witness :
  NoDup (map id (Page.addActionItem 20 (js "b") [mkItem (js "10") (js "a") false])).
Proof.
  refine (proj1 (proj2 (ids_come_from_the_clock 20 (js "b") (js "c")
                          [mkItem (js "10") (js "a") false])) _ _).
  - repeat constructor. simpl. intuition.
  - simpl. intros [H|[]]. discriminate H.
Defined.

(** ** The collapsed sections *)

Lemma setHas_In (s : JS.NumSet) (x : nat) : JS.setHas s x = true <-> In x s.
Proof.
  unfold JS.setHas. rewrite existsb_exists. split.
  - intros (y & Hy & Heq). apply Nat.eqb_eq in Heq. now subst.
  - intros H. exists x. split; [exact H|apply Nat.eqb_refl].
Qed.

Lemma setHas_false (s : JS.NumSet) (x : nat) : JS.setHas s x = false <-> ~ In x s.
Proof.
  rewrite <- setHas_In. destruct (JS.setHas s x); split; congruence.
Qed.

Lemma setHas_toggle_same (index : nat) (prev : JS.NumSet) :
  JS.setHas (toggleSection index prev) index = negb (JS.setHas prev index).
Proof.
  unfold toggleSection. destruct (JS.setHas prev index) eqn:Hhas; simpl.
  - apply setHas_false. unfold JS.setDelete. intros Hin.
    apply filter_In in Hin as [_ Hne]. now rewrite Nat.eqb_refl in Hne.
  - apply setHas_In. unfold JS.setAdd. rewrite Hhas.
    apply in_or_app. right. now left.
Qed.

Lemma setHas_toggle_other (index other : nat) (prev : JS.NumSet) :
  other <> index ->
  JS.setHas (toggleSection index prev) other = JS.setHas prev other.
Proof.
  intros Hne. unfold toggleSection.
  destruct (JS.setHas prev other) eqn:Hother.
  - apply setHas_In in Hother. apply setHas_In.
    destruct (JS.setHas prev index) eqn:Hhas.
    + unfold JS.setDelete. apply filter_In. split; [exact Hother|].
      apply negb_true_iff, Nat.eqb_neq. congruence.
    + unfold JS.setAdd. rewrite Hhas. apply in_or_app. now left.
  - apply setHas_false in Hother. apply setHas_false. intros Hin. apply Hother.
    destruct (JS.setHas prev index) eqn:Hhas.
    + unfold JS.setDelete in Hin. now apply filter_In in Hin.
    + unfold JS.setAdd in Hin. rewrite Hhas in Hin.
      apply in_app_or in Hin as [Hin|[Heq|[]]]; [exact Hin|congruence].
Qed.

(** X6: toggleSection flips the membership of its index and of no other,
    so a second toggle of the same index restores every membership; a set
    without repeated values stays one. *)
Theorem toggleSection_flips_one_index (index : nat) (prev : JS.NumSet) :
  JS.setHas (toggleSection index prev) index = negb (JS.setHas prev index)
  /\ (forall other,
        other <> index ->
        JS.setHas (toggleSection index prev) other = JS.setHas prev other)
  /\ (forall any,
        JS.setHas (toggleSection index (toggleSection index prev)) any
        = JS.setHas prev any)
  /\ (NoDup prev -> NoDup (toggleSection index prev)).
Proof.
  split; [apply setHas_toggle_same|]. split; [intros; now apply setHas_toggle_other|].
  split.
  - intros any. destruct (Nat.eq_dec any index) as [->|Hne].
    + rewrite !setHas_toggle_same. apply negb_involutive.
    + now rewrite !setHas_toggle_other.
  - intros Hnodup. unfold toggleSection.
    destruct (JS.setHas prev index) eqn:Hhas.
    + now apply NoDup_filter.
    + unfold JS.setAdd. rewrite Hhas. apply setHas_false in Hhas.
      apply NoDup_rev in Hnodup. rewrite <- (rev_involutive (prev ++ [index])).
      apply NoDup_rev. rewrite rev_app_distr. cbn [rev app].
      constructor; [now rewrite <- in_rev|exact Hnodup].
Qed.

Lemma toggleSection_flips_one_index_witness :
  JS.setHas (toggleSection 1 [0; 2]) 2 = JS.setHas [0; 2] 2
  /\ NoDup (toggleSection 1 [0; 2]).
Proof.
  split.
  - apply (proj1 (proj2 (toggleSection_flips_one_index 1 [0; 2]))). discriminate.
  - apply (proj2 (proj2 (proj2 (toggleSection_flips_one_index 1 [0; 2])))).
    repeat constructor; simpl; intuition discriminate.
Defined.

(** ** The age of the briefing *)

(** X7: getTimeAgo names the age by its largest unit. A briefing younger
    than a minute, or dated in the future, is "just now"; from one minute on
    the text is the whole number of minutes (1 to 59), then of hours (1 to
    23), then of days (1 or more), the nested floors being one floor
    division. A date that does not parse gives "NaNd ago". *)
Theorem time_ago_names_the_largest_unit
    (now : Z) (getTime : jsstring -> option Z) (dateStr : jsstring) :
  (getTime dateStr = None -> getTimeAgo now getTime dateStr = js "NaNd ago")
  /\
  (forall t,
     getTime dateStr = Some t ->
     ((now - t < 60000)%Z -> getTimeAgo now getTime dateStr = js "just now")
     /\ ((60000 <= now - t < 3600000)%Z ->
         getTimeAgo now getTime dateStr
         = JS.numberToString ((now - t) / 60000) ++ js "m ago"
         /\ (1 <= (now - t) / 60000 <= 59)%Z)
     /\ ((3600000 <= now - t < 86400000)%Z ->
         getTimeAgo now getTime dateStr
         = JS.numberToString ((now - t) / 3600000) ++ js "h ago"
         /\ (1 <= (now - t) / 3600000 <= 23)%Z)
     /\ ((86400000 <= now - t)%Z ->
         getTimeAgo now getTime dateStr
         = JS.numberToString ((now - t) / 86400000) ++ js "d ago"
         /\ (1 <= (now - t) / 86400000)%Z)).
Proof.
  unfold getTimeAgo. split; [intros H; now rewrite H|].
  intros t Ht. rewrite Ht. cbn [option_map]. set (diff := (now - t)%Z).
  unfold getTimeAgoOf.
  assert (Hmin : (diff / 1000 / 60 = diff / 60000)%Z)
    by (rewrite Z.div_div by lia; reflexivity).
  assert (Hhour : (diff / 1000 / 60 / 60 = diff / 3600000)%Z)
    by (rewrite !Z.div_div by lia; reflexivity).
  assert (Hday : (diff / 1000 / 60 / 60 / 24 = diff / 86400000)%Z)
    by (rewrite !Z.div_div by lia; reflexivity).
  rewrite Hday, Hhour, Hmin.
  pose proof (Z.div_mod diff 1000 ltac:(lia)) as E1.
  pose proof (Z.mod_pos_bound diff 1000 ltac:(lia)) as B1.
  pose proof (Z.div_mod diff 60000 ltac:(lia)) as E2.
  pose proof (Z.mod_pos_bound diff 60000 ltac:(lia)) as B2.
  pose proof (Z.div_mod diff 3600000 ltac:(lia)) as E3.
  pose proof (Z.mod_pos_bound diff 3600000 ltac:(lia)) as B3.
  pose proof (Z.div_mod diff 86400000 ltac:(lia)) as E4.
  pose proof (Z.mod_pos_bound diff 86400000 ltac:(lia)) as B4.
  split; [|split; [|split]]; intros Hrange.
  - destruct (Z.ltb_spec (diff / 1000) 60); [reflexivity|lia].
  - split; [|lia].
    destruct (Z.ltb_spec (diff / 1000) 60); [lia|].
    destruct (Z.ltb_spec (diff / 60000) 60); [reflexivity|lia].
  - split; [|lia].
    destruct (Z.ltb_spec (diff / 1000) 60); [lia|].
    destruct (Z.ltb_spec (diff / 60000) 60); [lia|].
    destruct (Z.ltb_spec (diff / 3600000) 24); [reflexivity|lia].
  - split; [|lia].
    destruct (Z.ltb_spec (diff / 1000) 60); [lia|].
    destruct (Z.ltb_spec (diff / 60000) 60); [lia|].
    destruct (Z.ltb_spec (diff / 3600000) 24); [lia|reflexivity].
Qed.

Lemma time_ago_names_the_largest_unit_witness :
  getTimeAgo 7260000 (fun _ => Some 0%Z) (js "1970-01-01T00:00:00Z") = js "2h ago".
Proof.
  exact (proj1 (proj1 (proj2 (proj2 (proj2
           (time_ago_names_the_largest_unit 7260000 (fun _ => Some 0%Z)
              (js "1970-01-01T00:00:00Z")) 0%Z eq_refl)))
           ltac:(lia))).
Defined.

(** ** The source feed *)

Lemma insertSorted_perm (A : Type) (cmp : A -> A -> Z) (x : A) (l : list A) :
  Permutation (JS.insertSorted cmp x l) (x :: l).
Proof.
  induction l as [|y l IH]; simpl; [reflexivity|].
  destruct (cmp x y <=? 0)%Z; [reflexivity|].
  rewrite IH. apply perm_swap.
Qed.

Lemma sort_perm (A : Type) (cmp : A -> A -> Z) (l : list A) :
  Permutation (JS.sort cmp l) l.
Proof.
  induction l as [|x l IH]; simpl; [reflexivity|].
  rewrite insertSorted_perm. now constructor.
Qed.

Lemma insert_keeps_descending (x : SourceItem) (l : list SourceItem) :
  StronglySorted (fun a b => (score b <= score a)%Z) l ->
  StronglySorted (fun a b => (score b <= score a)%Z) (JS.insertSorted byScore x l).
Proof.
  induction 1 as [|y l Hsorted IH Hall]; simpl.
  - constructor; constructor.
  - unfold byScore at 1. destruct (Z.leb_spec (score y - score x) 0) as [Hle|Hgt].
    + constructor; [now constructor|].
      constructor; [lia|].
      eapply Forall_impl; [|exact Hall]. simpl. intros z Hz. lia.
    + constructor; [exact IH|].
      apply Forall_forall. intros z Hz.
      apply (Permutation_in _ (insertSorted_perm _ byScore x l)) in Hz.
      destruct Hz as [<-|Hz]; [lia|].
      exact (proj1 (Forall_forall _ l) Hall z Hz).
Qed.

Lemma insert_keeps_ties (v : Z) (x : SourceItem) (l : list SourceItem) :
  filter (fun s => (score s =? v)%Z) (JS.insertSorted byScore x l)
  = filter (fun s => (score s =? v)%Z) (x :: l).
Proof.
  induction l as [|y l IH]; [reflexivity|].
  cbn [JS.insertSorted]. unfold byScore at 1.
  destruct (Z.leb_spec (score y - score x) 0) as [Hle|Hgt]; [reflexivity|].
  cbn [filter] in *. rewrite IH.
  destruct (Z.eqb_spec (score x) v), (Z.eqb_spec (score y) v); try reflexivity.
  lia.
Qed.

Lemma sortByScore_spec (l : list SourceItem) :
  Permutation (sortByScore l) l
  /\ StronglySorted (fun a b => (score b <= score a)%Z) (sortByScore l)
  /\ forall v, filter (fun s => (score s =? v)%Z) (sortByScore l)
               = filter (fun s => (score s =? v)%Z) l.
Proof.
  split; [apply sort_perm|]. split.
  - change (sortByScore l) with (JS.sort byScore l).
    induction l as [|x l IH]; simpl; [constructor|].
    now apply insert_keeps_descending.
  - intros v. change (sortByScore l) with (JS.sort byScore l).
    induction l as [|x l IH]; [reflexivity|].
    cbn [JS.sort]. rewrite insert_keeps_ties.
    cbn [filter]. now rewrite IH.
Qed.

(** X8: the feed of src/app/page.tsx shows, by falling score, exactly the
    sources of the chosen origin (all of them under "all"), each as often
    as it is listed, and sources of equal score keep the order they came in. *)
Theorem feed_is_filtered_and_sorted (sourceFilter : jsstring) (sources : list SourceItem) :
  StronglySorted (fun a b => (score b <= score a)%Z)
    (Page.sortedSources sourceFilter sources)
  /\ Permutation (Page.sortedSources sourceFilter sources)
       (Page.filteredSources sourceFilter sources)
  /\ (forall v,
        filter (fun s => (score s =? v)%Z) (Page.sortedSources sourceFilter sources)
        = filter (fun s => (score s =? v)%Z) (Page.filteredSources sourceFilter sources))
  /\ Page.filteredSources (js "all") sources = sources
  /\ (sourceFilter <> js "all" ->
      forall s, In s (Page.sortedSources sourceFilter sources)
                <-> In s sources /\ source s = sourceFilter).
Proof.
  unfold Page.sortedSources.
  destruct (sortByScore_spec (Page.filteredSources sourceFilter sources))
    as (Hperm & Hsorted & Hties).
  split; [exact Hsorted|]. split; [exact Hperm|]. split; [exact Hties|].
  split; [reflexivity|].
  intros Hfilter s. apply eqb_neq in Hfilter. split.
  - intros Hin. apply (Permutation_in _ Hperm) in Hin.
    unfold Page.filteredSources in Hin. rewrite Hfilter in Hin.
    apply filter_In in Hin as [Hin Hsrc]. now apply eqb_eq in Hsrc.
  - intros [Hin Hsrc]. apply (Permutation_in _ (Permutation_sym Hperm)).
    unfold Page.filteredSources. rewrite Hfilter.
    apply filter_In. split; [exact Hin|]. now apply eqb_eq.
Qed.

Lemma feed_is_filtered_and_sorted_witness :
  In (mkSource (js "t") (js "u") 5 1 (js "reddit"))
    (Page.sortedSources (js "reddit")
       [mkSource (js "a") (js "b") 9 0 (js "hackernews");
        mkSource (js "t") (js "u") 5 1 (js "reddit")]).
Proof.
  apply (proj2 (proj2 (proj2 (proj2 (proj2 (feed_is_filtered_and_sorted (js "reddit")
           [mkSource (js "a") (js "b") 9 0 (js "hackernews");
            mkSource (js "t") (js "u") 5 1 (js "reddit")]))))
           ltac:(discriminate)
           (mkSource (js "t") (js "u") 5 1 (js "reddit")))).
  split; [right; left; reflexivity|reflexivity].
Defined.

Lemma arrayIncludes_In (a : list jsstring) (x : jsstring) :
  Part000.arrayIncludes a x = true <-> In x a.
Proof.
  unfold Part000.arrayIncludes. rewrite existsb_exists. split.
  - intros (y & Hy & Heq). apply eqb_eq in Heq. now subst.
  - intros H. exists x. split; [exact H|apply eqb_refl].
Qed.

Lemma tab_found_by_key (tab : Part000.FilterTab) :
  In tab Part000.FILTER_TABS ->
  find (fun t => JS.eqb (Part000.tab_key t) (Part000.tab_key tab)) Part000.FILTER_TABS
  = Some tab.
Proof.
  unfold Part000.FILTER_TABS.
  intros [<-|[<-|[<-|[<-|[<-|[<-|[]]]]]]]; reflexivity.
Qed.

Lemma filter_not_nil (A : Type) (p : A -> bool) (l : list A) :
  filter p l <> [] <-> existsb p l = true.
Proof.
  induction l as [|a l IH]; simpl; [split; [congruence|discriminate]|].
  destruct (p a); simpl; [split; [reflexivity|discriminate]|exact IH].
Qed.

(** X9: in part_000 a tab other than "all" shows the sources whose origin
    the tab lists, by falling score. Such a tab is offered exactly when it
    has a source to show, and "all" is always offered; a source whose origin
    no tab lists is shown under "all" only, and a filter that names no tab
    shows nothing. *)
Theorem tabs_show_their_origins (sources : list SourceItem) :
  (forall sourceFilter,
     StronglySorted (fun a b => (score b <= score a)%Z)
       (Part000.sortedSources sourceFilter sources)
     /\ Permutation (Part000.sortedSources sourceFilter sources)
          (Part000.filteredSources sourceFilter sources))
  /\ Part000.filteredSources (js "all") sources = sources
  /\ (forall tab,
        In tab Part000.FILTER_TABS -> Part000.tab_key tab <> js "all" ->
        (forall s, In s (Part000.filteredSources (Part000.tab_key tab) sources)
                   <-> In s sources /\ In (source s) (Part000.tab_sources tab))
        /\ (In tab (Part000.availableFilters sources)
            <-> Part000.filteredSources (Part000.tab_key tab) sources <> []))
  /\ (exists rest, Part000.availableFilters sources
                   = Part000.mkTab (js "all") (js "All") [] :: rest)
  /\ (forall sourceFilter,
        sourceFilter <> js "all" ->
        (forall tab, In tab Part000.FILTER_TABS ->
                     Part000.tab_key tab <> sourceFilter) ->
        Part000.filteredSources sourceFilter sources = [])
  /\ (forall sourceFilter s,
        sourceFilter <> js "all" ->
        (forall tab, In tab Part000.FILTER_TABS ->
                     ~ In (source s) (Part000.tab_sources tab)) ->
        ~ In s (Part000.sortedSources sourceFilter sources)).
Proof.
  split; [|split; [reflexivity|split; [|split; [|split]]]].
  - intros sourceFilter. unfold Part000.sortedSources.
    destruct (sortByScore_spec (Part000.filteredSources sourceFilter sources))
      as (Hperm & Hsorted & _). now split.
  - intros tab Htab Hkey. apply eqb_neq in Hkey.
    assert (Hshown : forall s,
               In s (Part000.filteredSources (Part000.tab_key tab) sources)
               <-> In s sources /\ In (source s) (Part000.tab_sources tab)).
    { intros s. unfold Part000.filteredSources.
      rewrite Hkey, (tab_found_by_key tab Htab), filter_In.
      now rewrite arrayIncludes_In. }
    split; [exact Hshown|].
    unfold Part000.availableFilters. rewrite filter_In, Hkey. cbn [orb].
    unfold Part000.filteredSources. rewrite Hkey, (tab_found_by_key tab Htab).
    rewrite filter_not_nil. tauto.
  - unfold Part000.availableFilters, Part000.FILTER_TABS. cbn [filter].
    change (JS.eqb (Part000.tab_key (Part000.mkTab (js "all") (js "All") []))
              (js "all")) with true.
    cbn [orb]. eexists. reflexivity.
  - intros sourceFilter Hfilter Hnone. apply eqb_neq in Hfilter.
    unfold Part000.filteredSources. rewrite Hfilter.
    destruct (find _ Part000.FILTER_TABS) as [tab|] eqn:Hfind.
    + apply find_some in Hfind as [Hin Hkey]. apply eqb_eq in Hkey.
      now destruct (Hnone tab Hin).
    + induction sources as [|s sources IH]; [reflexivity|exact IH].
  - intros sourceFilter s Hfilter Hnone Hin. apply eqb_neq in Hfilter.
    unfold Part000.sortedSources in Hin.
    apply (Permutation_in _ (proj1 (sortByScore_spec _))) in Hin.
    unfold Part000.filteredSources in Hin. rewrite Hfilter in Hin.
    apply filter_In in Hin as [_ Hin].
    destruct (find _ Part000.FILTER_TABS) as [tab|] eqn:Hfind; [|discriminate].
    apply find_some in Hfind as [Htab _]. apply arrayIncludes_In in Hin.
    exact (Hnone tab Htab Hin).
Qed.

Lemma tabs_show_their_origins_witness :
  ~ In (mkSource (js "t") (js "u") 5 1 (js "openai"))
      (Part000.sortedSources (js "research")
         [mkSource (js "t") (js "u") 5 1 (js "openai")]).
Proof.
  apply (proj2 (proj2 (proj2 (proj2 (proj2 (tabs_show_their_origins
           [mkSource (js "t") (js "u") 5 1 (js "openai")])))))).
  - discriminate.
  - unfold Part000.FILTER_TABS.
    intros tab [<-|[<-|[<-|[<-|[<-|[<-|[]]]]]]]; simpl;
      intuition discriminate.
Defined.

(** ** The quick brief *)

(** X10: part_000 shows the first section titled QUICK BRIEF in the brief
    card and the sections with another title in the extended list, in their
    order. Together they are all the sections exactly when at most one is
    titled QUICK BRIEF: a further one is shown nowhere. *)
Theorem one_quick_brief_is_shown (allSections : list Section) :
  Part000.quickBrief allSections
  = hd_error (filter (fun s => JS.eqb (title s) (js "QUICK BRIEF")) allSections)
  /\ List.length (Part000.extendedSections allSections)
     + List.length (filter (fun s => JS.eqb (title s) (js "QUICK BRIEF")) allSections)
     = List.length allSections
  /\ Forall (fun s => title s <> js "QUICK BRIEF") (Part000.extendedSections allSections)
  /\ (forall pre q mid q' post,
        allSections = pre ++ q :: mid ++ q' :: post ->
        title q = js "QUICK BRIEF" -> title q' = js "QUICK BRIEF" ->
        Forall (fun s => title s <> js "QUICK BRIEF") pre ->
        Part000.quickBrief allSections = Some q
        /\ List.length (Part000.extendedSections allSections) + 1
           < List.length allSections).
Proof.
  unfold Part000.quickBrief, Part000.extendedSections.
  assert (Hcount : forall l : list Section,
             List.length (filter (fun s => negb (JS.eqb (title s) (js "QUICK BRIEF"))) l)
             + List.length (filter (fun s => JS.eqb (title s) (js "QUICK BRIEF")) l)
             = List.length l).
  { induction l as [|s l IH]; [reflexivity|]. simpl.
    destruct (JS.eqb (title s) (js "QUICK BRIEF")); simpl; lia. }
  split; [|split; [apply Hcount|split]].
  - induction allSections as [|s l IH]; [reflexivity|]. simpl.
    destruct (JS.eqb (title s) (js "QUICK BRIEF")); [reflexivity|exact IH].
  - apply Forall_forall. intros s Hin. apply filter_In in Hin as [_ Hne].
    apply negb_true_iff in Hne. now apply eqb_neq.
  - intros pre q mid q' post -> Hq Hq' Hpre. split.
    + apply find_first; [|now apply eqb_eq].
      apply forallb_forall. intros s Hs.
      apply negb_true_iff, eqb_neq.
      exact (proj1 (Forall_forall _ pre) Hpre s Hs).
    + pose proof (Hcount (pre ++ q :: mid ++ q' :: post)) as Htotal.
      assert (2 <= List.length
                     (filter (fun s => JS.eqb (title s) (js "QUICK BRIEF"))
                        (pre ++ q :: mid ++ q' :: post))).
      { rewrite filter_app, length_app. cbn [filter].
        rewrite (proj2 (eqb_eq _ _) Hq). cbn [List.length].
        rewrite filter_app, length_app. cbn [filter].
        rewrite (proj2 (eqb_eq _ _) Hq'). cbn [List.length]. lia. }
      lia.
Qed.

Lemma one_quick_brief_is_shown_witness :
  Part000.quickBrief
    [mkSection (js "QUICK BRIEF") (js "a") [] [];
     mkSection (js "QUICK BRIEF") (js "b") [] []]
  = Some (mkSection (js "QUICK BRIEF") (js "a") [] []).
Proof.
  refine (proj1 (proj2 (proj2 (proj2 (one_quick_brief_is_shown
            [mkSection (js "QUICK BRIEF") (js "a") [] [];
             mkSection (js "QUICK BRIEF") (js "b") [] []])))
            [] (mkSection (js "QUICK BRIEF") (js "a") [] []) []
            (mkSection (js "QUICK BRIEF") (js "b") [] []) []
            eq_refl eq_refl eq_refl _)).
  constructor.
Defined.

(** ** What the classifier returns *)

Lemma Forall_flat_map (A B : Type) (P : B -> Prop) (f : A -> list B) (l : list A) :
  (forall x, Forall P (f x)) -> Forall P (flat_map f l).
Proof.
  intros H. induction l as [|x l IH]; simpl; [constructor|].
  apply Forall_app. split; [apply H|exact IH].
Qed.

Lemma flat_map_length_le (A B : Type) (f : A -> list B) (l : list A) :
  (forall x, List.length (f x) <= 1) ->
  List.length (flat_map f l) <= List.length l.
Proof.
  intros H. induction l as [|x l IH]; simpl; [lia|].
  rewrite length_app. specialize (H x). lia.
Qed.

(** X11: every section parseSections returns, in src/app/page.tsx and in
    part_000, is titled with a key of the label table and carries the icon
    and the gradient of that key; its body is not empty and has no outer
    white space. There are never more sections than parts. *)
Theorem sections_carry_a_label (toUpperCase : jsstring -> jsstring) (md : jsstring) :
  (exists secs,
     Page.parseSections toUpperCase md = JS.Ok secs
     /\ Forall (fun sec =>
                  In (title sec, mkStyle (icon sec) (gradient sec)) Page.SECTION_CONFIG
                  /\ tidy (content sec) = true) secs
     /\ List.length secs <= List.length (Re.split Re.headingMarker md))
  /\
  (Forall (fun sec =>
             In (title sec, mkStyle (icon sec) (gradient sec)) Part000.SECTION_CONFIG
             /\ tidy (content sec) = true)
     (Part000.parseSections toUpperCase md)
   /\ List.length (Part000.parseSections toUpperCase md)
      <= List.length (Part000.headingParts [] [] (JS.split NL md))).
Proof.
  split.
  - eexists. split; [apply page_parseSections_flat_map|]. split.
    + apply Forall_flat_map. intros part. unfold Page.contribution.
      destruct (JS.truthy (partContent part)) eqn:Hbody; [|constructor].
      destruct (findLabel toUpperCase Page.SECTION_CONFIG (partTitle part))
        as [[key [i g]]|] eqn:Hfind; [|constructor].
      constructor; [|constructor]. cbn [title content icon gradient style_icon style_gradient].
      split; [now apply find_some in Hfind|].
      unfold partContent, contentOfLines in *. now apply tidy_trim.
    + apply flat_map_length_le. apply page_contribution_length.
  - unfold Part000.parseSections. rewrite part000_parseSections_flat_map. split.
    + apply Forall_flat_map. intros [heading body].
      unfold Part000.contribution, Part000.pushCurrent.
      cbn [fst snd Part000.currentTitle Part000.currentContent Part000.sections].
      destruct (JS.truthy heading && (0 <? List.length body)); [|constructor].
      destruct (findLabel toUpperCase Part000.SECTION_CONFIG heading)
        as [[key [i g]]|] eqn:Hfind; [|constructor].
      destruct (JS.truthy (JS.trim (JS.join [NL] body))) eqn:Hbody; [|constructor].
      constructor; [|constructor]. cbn [app title content icon gradient style_icon style_gradient].
      split; [now apply find_some in Hfind|now apply tidy_trim].
    + apply flat_map_length_le. apply part000_contribution_length.
Qed.

Lemma flat_map_flat_map (A B C : Type) (f : A -> list B) (g : B -> list C) (l : list A) :
  flat_map g (flat_map f l) = flat_map (fun x => flat_map g (f x)) l.
Proof.
  induction l as [|x l IH]; simpl; [reflexivity|].
  now rewrite flat_map_app, IH.
Qed.

(** X12: src/app/page.tsx returns what part_001 returns, relabelled: each
    section of part_001 whose title contains a category key comes back
    with the same body under that key, in the same order, and the sections
    without a key are left out. *)
Theorem page_relabels_part001 (toUpperCase : jsstring -> jsstring) (md : jsstring) :
  exists earlier,
    Part001.parseSections toUpperCase md = JS.Ok earlier
    /\ Page.parseSections toUpperCase md
       = JS.Ok (flat_map (relabel toUpperCase) earlier).
Proof.
  eexists. split; [apply part001_parseSections_flat_map|].
  unfold Page.parseSections. rewrite page_parseSections_flat_map. f_equal.
  rewrite flat_map_flat_map. apply flat_map_ext. intros part.
  unfold Page.contribution, Part001.contribution, relabel.
  destruct (JS.truthy (partContent part)); cbn [flat_map Part001.title Part001.content].
  - destruct (findLabel toUpperCase Page.SECTION_CONFIG (partTitle part))
      as [[key style]|]; reflexivity.
  - reflexivity.
Qed.

Lemma skipn_takeWhile (p : char -> bool) (s : jsstring) :
  skipn (List.length (JS.takeWhile p s)) s = JS.dropWhile p s.
Proof.
  induction s as [|c s IH]; simpl; [reflexivity|].
  destruct (p c); simpl; [exact IH|reflexivity].
Qed.

Lemma filter_dropWhile (p : char -> bool) (s : jsstring) :
  filter (fun c => negb (p c)) (JS.dropWhile p s) = filter (fun c => negb (p c)) s.
Proof.
  induction s as [|c s IH]; simpl; [reflexivity|].
  destruct (p c) eqn:Hc; simpl; [exact IH|now rewrite Hc].
Qed.

Lemma removeStars_go (s : jsstring) :
  forall skip prev,
    Re.replaceAll_go Re.stars skip prev s
    = filter (fun c => negb (ch "*" =? c)%N) (skipn skip s).
Proof.
  induction s as [|c s IH]; intros skip prev.
  - now destruct skip.
  - destruct skip as [|skip]; cbn [Re.replaceAll_go skipn]; [|apply IH].
    unfold Re.stars. cbn [JS.takeWhile filter].
    destruct (ch "*" =? c)%N eqn:Hc; cbn [negb List.length app].
    + rewrite IH, skipn_takeWhile. apply filter_dropWhile.
    + now rewrite IH.
Qed.

(** Taking the asterisks out is a filter. *)
Lemma removeStars_filter (s : jsstring) :
  Re.removeStars s = filter (fun c => negb (ch "*" =? c)%N) s.
Proof. apply removeStars_go. Qed.

Lemma noStar_trim (s : jsstring) : noStar s = true -> noStar (JS.trim s) = true.
Proof.
  destruct (trim_split s) as (l & r & Hs & _). unfold noStar. intros H.
  rewrite Hs, !forallb_app in H.
  apply andb_true_iff in H as [_ H]. now apply andb_true_iff in H as [H _].
Qed.

Lemma titleOfLine_clean (line : jsstring) :
  noStar (titleOfLine line) = true
  /\ startsClean (titleOfLine line) = true
  /\ endsClean (titleOfLine line) = true.
Proof.
  unfold titleOfLine. split; [|split; [apply trim_startsClean|apply trim_endsClean]].
  apply noStar_trim. rewrite removeStars_filter. unfold noStar.
  apply forallb_forall. intros c Hc. now apply filter_In in Hc.
Qed.

(** X13: the sections of part_001 are titled with the first line of their
    part without its asterisks and without outer white space (the title may
    be empty), and their bodies are not empty and have no outer white space;
    the heading part_000 reads off a header line is cleaned the same way. *)
Theorem titles_are_cleaned (toUpperCase : jsstring -> jsstring) (md : jsstring) :
  (exists secs,
     Part001.parseSections toUpperCase md = JS.Ok secs
     /\ Forall (fun sec =>
                  noStar (Part001.title sec) = true
                  /\ startsClean (Part001.title sec) = true
                  /\ endsClean (Part001.title sec) = true
                  /\ tidy (Part001.content sec) = true) secs)
  /\ Forall (fun part =>
               noStar (fst part) = true
               /\ startsClean (fst part) = true /\ endsClean (fst part) = true)
       (Part000.headingParts [] [] (JS.split NL md)).
Proof.
  split.
  - eexists. split; [apply part001_parseSections_flat_map|].
    apply Forall_flat_map. intros part. unfold Part001.contribution.
    destruct (JS.truthy (partContent part)) eqn:Hbody; [|constructor].
    constructor; [|constructor]. cbn [Part001.title Part001.content].
    destruct (titleOfLine_clean (hd [] (partLines part))) as (H1 & H2 & H3).
    repeat split; try assumption.
    unfold partContent, contentOfLines in *. now apply tidy_trim.
  - assert (Hparts : forall lines heading body,
               noStar heading = true /\ startsClean heading = true
               /\ endsClean heading = true ->
               Forall (fun part =>
                         noStar (fst part) = true
                         /\ startsClean (fst part) = true
                         /\ endsClean (fst part) = true)
                 (Part000.headingParts heading body lines)).
    { induction lines as [|line lines IH]; intros heading body Hheading; simpl.
      - constructor; [exact Hheading|constructor].
      - destruct (Re.headerLine line) as [group1|].
        + constructor; [exact Hheading|]. apply IH. apply titleOfLine_clean.
        + now apply IH. }
    apply Hparts. now repeat split.
Qed.

(** ** The number highlighter, further *)

Lemma optional_skipn (p : char -> bool) (s : jsstring) :
  Re.optional p s ++ skipn (List.length (Re.optional p s)) s = s.
Proof.
  destruct s as [|c s]; [reflexivity|]. simpl. now destruct (p c).
Qed.

Lemma optional_all (p : char -> bool) (s : jsstring) :
  forallb p (Re.optional p s) = true.
Proof.
  destruct s as [|c s]; [reflexivity|]. simpl.
  destruct (p c) eqn:Hc; simpl; [now rewrite Hc|reflexivity].
Qed.

(** The token is the start of the text, and it is a numeric piece. *)
Lemma numberToken_prefix (s tok : jsstring) :
  Re.numberToken s = Some tok ->
  numberPiece tok /\ exists rest, s = tok ++ rest.
Proof.
  destruct s as [|d s1]; [discriminate|]. unfold Re.numberToken.
  destruct (JS.isDigit d) eqn:Hd; [|discriminate].
  set (a := JS.takeWhile Re.isDigitOrComma s1).
  set (s2 := JS.dropWhile Re.isDigitOrComma s1).
  set (b := Re.optional (N.eqb (ch ".")) s2).
  set (s3 := skipn (List.length b) s2).
  set (c := JS.takeWhile JS.isDigit s3).
  set (s4 := JS.dropWhile JS.isDigit s3).
  set (e := Re.optional Re.isSuffix s4).
  intros Htok. injection Htok as <-. split; [split|].
  - now exists d, (a ++ b ++ c ++ e).
  - cbn [forallb]. unfold isNumberChar at 1. rewrite Hd. cbn [orb andb].
    rewrite !forallb_app. repeat (apply andb_true_iff; split).
    + apply (forallb_weaken _ Re.isDigitOrComma); [|apply takeWhile_all].
      intros x Hx. unfold isNumberChar. unfold Re.isDigitOrComma in Hx.
      apply orb_true_iff in Hx as [Hx|Hx]; rewrite Hx;
        now rewrite ?orb_true_r.
    + apply (forallb_weaken _ (N.eqb (ch "."))); [|apply optional_all].
      intros x Hx. unfold isNumberChar. rewrite N.eqb_sym in Hx. rewrite Hx.
      now rewrite ?orb_true_r.
    + apply (forallb_weaken _ JS.isDigit); [|apply takeWhile_all].
      intros x Hx. unfold isNumberChar. now rewrite Hx.
    + apply (forallb_weaken _ Re.isSuffix); [|apply optional_all].
      intros x Hx. unfold isNumberChar. rewrite Hx. now rewrite ?orb_true_r.
  - exists (skipn (List.length e) s4). cbn [app]. f_equal.
    rewrite <- !app_assoc. unfold e. rewrite optional_skipn.
    unfold c, s4. rewrite takeWhile_dropWhile.
    unfold b, s3. rewrite optional_skipn.
    unfold a, s2. now rewrite takeWhile_dropWhile.
Qed.

Lemma skipn_exact (A : Type) (l r : list A) : skipn (List.length l) (l ++ r) = r.
Proof. induction l as [|a l IH]; [reflexivity|exact IH]. Qed.

Lemma highlight_go_marked (s : jsstring) :
  forall skip prev,
    Marked numberPiece NUM_OPEN SPAN_CLOSE (skipn skip s)
      (Re.replaceAll_go (Re.number NUM_OPEN SPAN_CLOSE) skip prev s).
Proof.
  induction s as [|c s IH]; intros skip prev.
  - destruct skip; constructor.
  - destruct skip as [|skip]; cbn [Re.replaceAll_go skipn]; [|apply IH].
    unfold Re.number at 1.
    destruct (Re.guarded prev); [constructor; apply (IH 0)|].
    destruct (Re.numberToken (c :: s)) as [tok|] eqn:Htok;
      [|constructor; apply (IH 0)].
    destruct (numberToken_prefix _ _ Htok) as [Hpiece [rest Hrest]].
    destruct tok as [|c' tok]; [now apply numberToken_not_nil in Htok|].
    cbn [List.length]. injection Hrest as <- ->.
    rewrite <- !app_assoc.
    change (c :: tok ++ rest) with ((c :: tok) ++ rest).
    apply Marked_wrap; [exact Hpiece|].
    specialize (IH (List.length tok) (Some c)).
    now rewrite skipn_exact in IH.
Qed.

(** X14: highlightNumbers only wraps: its result is its argument with some
    pieces put between the numeric span tags, every piece starting with a
    digit and made of digits, commas, dots and suffixes; no code unit is
    dropped, moved or added outside the tags. A text without digits comes
    back as it is. *)
Theorem highlight_only_wraps_numbers (html : jsstring) :
  Marked numberPiece NUM_OPEN SPAN_CLOSE html (highlightNumbers html)
  /\ (noDigit html = true -> highlightNumbers html = html).
Proof.
  split; [apply (highlight_go_marked html 0 None)|].
  intros Hnone. unfold highlightNumbers, Re.replaceAll.
  fold (highlightFrom None html).
  rewrite <- (app_nil_r html) at 1.
  rewrite (highlightFrom_noDigit html [] Hnone). apply app_nil_r.
Qed.

Lemma highlight_only_wraps_numbers_witness :
  highlightNumbers (js "no figures here") = js "no figures here".
Proof.
  exact (proj2 (highlight_only_wraps_numbers (js "no figures here")) eq_refl).
Defined.

(** ** The emphasis *)

Lemma startsWith_stars (s : jsstring) :
  JS.startsWith s (js "**") = true -> exists rest, s = ch "*" :: ch "*" :: rest.
Proof.
  change (js "**") with [ch "*"; ch "*"].
  destruct s as [|a [|b s]]; cbn [JS.startsWith]; intros H.
  - discriminate.
  - apply andb_true_iff in H as [_ H]. discriminate.
  - apply andb_true_iff in H as [H1 H2]. apply andb_true_iff in H2 as [H2 _].
    apply N.eqb_eq in H1, H2. subst. now exists s.
Qed.

Lemma lazyToStars_spec (s g : jsstring) (n : nat) :
  Re.lazyToStars s = Some (g, n) ->
  noLineTerminator g = true
  /\ n = List.length (g ++ js "**")
  /\ exists rest, s = g ++ js "**" ++ rest.
Proof.
  revert g n. induction s as [|c s IH]; intros g n; [discriminate|].
  cbn [Re.lazyToStars].
  destruct (JS.startsWith (c :: s) (js "**")) eqn:Hstars.
  - intros H. injection H as <- <-. split; [reflexivity|]. split; [reflexivity|].
    exact (startsWith_stars _ Hstars).
  - destruct (JS.isLineTerminator c) eqn:Hlt; [discriminate|].
    destruct (Re.lazyToStars s) as [[g' n']|]; [|discriminate].
    intros H. injection H as <- <-.
    destruct (IH g' n' eq_refl) as (Hg & Hn & rest & Hs).
    split; [|split].
    + unfold noLineTerminator in *. cbn [forallb]. now rewrite Hlt, Hg.
    + cbn [app List.length]. now rewrite Hn.
    + exists rest. cbn [app]. now rewrite Hs.
Qed.

Lemma emphasize_go_spec (s : jsstring) :
  forall skip prev,
    Emphasized (skipn skip s)
      (Re.replaceAll_go (Re.bold EM_OPEN SPAN_CLOSE) skip prev s).
Proof.
  induction s as [|c s IH]; intros skip prev.
  - destruct skip; constructor.
  - destruct skip as [|skip]; cbn [Re.replaceAll_go skipn]; [|apply IH].
    unfold Re.bold at 1.
    destruct (JS.startsWith (c :: s) (js "**")) eqn:Hstars;
      [|constructor; apply (IH 0)].
    destruct (Re.lazyToStars (skipn 2 (c :: s))) as [[g n]|] eqn:Hlazy;
      [|constructor; apply (IH 0)].
    destruct (lazyToStars_spec _ _ _ Hlazy) as (Hg & Hn & rest & Hrest).
    destruct (startsWith_stars _ Hstars) as [s2 Hs2].
    injection Hs2 as -> ->.
    change (js "**") with [ch "*"; ch "*"] in *.
    cbn [skipn] in Hrest. subst s2. cbn [plus].
    rewrite <- !app_assoc.
    change (ch "*" :: ch "*" :: g ++ [ch "*"; ch "*"] ++ rest)
      with ([ch "*"; ch "*"] ++ g ++ [ch "*"; ch "*"] ++ rest).
    apply Emphasized_span; [exact Hg|].
    assert (Hskip : skipn (S (List.length (g ++ [ch "*"; ch "*"])))
                      (ch "*" :: g ++ [ch "*"; ch "*"] ++ rest) = rest).
    { cbn [skipn]. rewrite app_assoc. apply skipn_exact. }
    subst n.
    exact (eq_ind _ (fun x => Emphasized x _)
             (IH (S (List.length (g ++ [ch "*"; ch "*"]))) (Some (ch "*")))
             _ Hskip).
Qed.

Lemma emphasize_any_prev (s : jsstring) :
  forall skip prev prev',
    Re.replaceAll_go (Re.bold EM_OPEN SPAN_CLOSE) skip prev s
    = Re.replaceAll_go (Re.bold EM_OPEN SPAN_CLOSE) skip prev' s.
Proof.
  destruct s as [|c s]; intros skip prev prev'; [reflexivity|].
  destruct skip; reflexivity.
Qed.

Lemma startsWith_no_star (c : char) (s : jsstring) :
  (ch "*" =? c)%N = false -> JS.startsWith (c :: s) (js "**") = false.
Proof.
  intros H. change (js "**") with [ch "*"; ch "*"].
  cbn [JS.startsWith]. now rewrite H.
Qed.

Lemma lazyToStars_plain (t rest : jsstring) :
  noStar t = true -> noLineTerminator t = true ->
  Re.lazyToStars (t ++ js "**" ++ rest) = Some (t, List.length t + 2).
Proof.
  induction t as [|c t IH]; intros Hstar Hlt; [reflexivity|].
  cbn [noStar forallb] in Hstar. apply andb_true_iff in Hstar as [Hc Hstar].
  unfold noLineTerminator in Hlt. cbn [forallb] in Hlt.
  apply andb_true_iff in Hlt as [Hc' Hlt].
  apply negb_true_iff in Hc, Hc'.
  cbn [app Re.lazyToStars]. rewrite (startsWith_no_star c _ Hc), Hc'.
  now rewrite (IH Hstar Hlt).
Qed.

Lemma replaceAll_go_match (m : option char -> jsstring -> option (jsstring * nat))
    (prev : option char) (tok rest out : jsstring) :
  tok <> [] ->
  m prev (tok ++ rest) = Some (out, List.length tok) ->
  Re.replaceAll_go m 0 prev (tok ++ rest)
  = out ++ Re.replaceAll_go m 0 (prevAfter prev tok) rest.
Proof.
  destruct tok as [|c tok]; [congruence|]. intros _ Hm.
  cbn [app Re.replaceAll_go]. change (c :: tok ++ rest) with ((c :: tok) ++ rest).
  rewrite Hm. cbn [List.length]. now rewrite replaceAll_go_skip.
Qed.

Lemma bold_plain (prev : option char) (t post : jsstring) :
  noStar t = true -> noLineTerminator t = true ->
  Re.bold EM_OPEN SPAN_CLOSE prev ((js "**" ++ t ++ js "**") ++ post)
  = Some (EM_OPEN ++ t ++ SPAN_CLOSE, List.length (js "**" ++ t ++ js "**")).
Proof.
  intros Ht Hlt. unfold Re.bold. rewrite <- !app_assoc.
  change (JS.startsWith (js "**" ++ t ++ js "**" ++ post) (js "**")) with true.
  cbv iota.
  change (skipn 2 (js "**" ++ t ++ js "**" ++ post)) with (t ++ js "**" ++ post).
  rewrite (lazyToStars_plain t post Ht Hlt). do 2 f_equal.
  rewrite !length_app. simpl. lia.
Qed.

(** X15: the emphasis step of formatBullets only replaces pieces [**t**]
    by [t] between the emphasis tags, and no piece holds a line terminator.
    After text without an asterisk, a piece [**t**] whose [t] holds neither
    an asterisk nor a line terminator is replaced, and the step goes on
    behind it; a text without an asterisk comes back as it is. *)
Theorem emphasis_replaces_bold_pieces (pre t post : jsstring) :
  Emphasized post (emphasize post)
  /\ (noStar pre = true -> noStar t = true -> noLineTerminator t = true ->
      emphasize (pre ++ js "**" ++ t ++ js "**" ++ post)
      = pre ++ EM_OPEN ++ t ++ SPAN_CLOSE ++ emphasize post)
  /\ (noStar pre = true -> emphasize pre = pre).
Proof.
  split; [apply (emphasize_go_spec post 0 None)|]. split.
  - intros Hpre Ht Hlt. unfold emphasize, Re.replaceAll.
    rewrite (emphasize_from_noStar pre _ Hpre). f_equal.
    rewrite 2!app_assoc, <- (app_assoc (js "**")).
    rewrite (replaceAll_go_match _ _ (js "**" ++ t ++ js "**") post _
               ltac:(discriminate) (bold_plain _ t post Ht Hlt)).
    rewrite <- !app_assoc. do 3 f_equal. apply emphasize_any_prev.
  - intros Hpre. unfold emphasize, Re.replaceAll.
    rewrite <- (app_nil_r pre) at 1.
    rewrite (emphasize_from_noStar pre [] Hpre). apply app_nil_r.
Qed.

Lemma emphasis_replaces_bold_pieces_witness :
  emphasize (js "the " ++ js "**" ++ js "deal" ++ js "**" ++ js " closed")
  = js "the " ++ EM_OPEN ++ js "deal" ++ SPAN_CLOSE ++ emphasize (js " closed").
Proof.
  exact (proj1 (proj2 (emphasis_replaces_bold_pieces (js "the ") (js "deal")
                         (js " closed")))
           eq_refl eq_refl eq_refl).
Defined.

(** ** The ordinal marker *)

(** X16: the strip of the ordinal marker and the test for a numbered line
    agree. When the test fails the strip changes nothing; when it holds the
    line is digits, a dot, white space and the stripped text, which does
    not start with white space. *)
Theorem ordinal_strip_agrees_with_test (s : jsstring) :
  (Re.isOrdinal s = false -> Re.stripOrdinal s = s)
  /\ (Re.isOrdinal s = true ->
      exists digits ws,
        digits <> [] /\ forallb JS.isDigit digits = true
        /\ forallb JS.isSpace ws = true
        /\ s = digits ++ js "." ++ ws ++ Re.stripOrdinal s
        /\ startsClean (Re.stripOrdinal s) = true).
Proof.
  unfold Re.isOrdinal, Re.stripOrdinal.
  pose proof (takeWhile_dropWhile JS.isDigit s) as Hs.
  pose proof (takeWhile_all JS.isDigit s) as Hdigits.
  destruct (JS.takeWhile JS.isDigit s) as [|d ds] eqn:Htake.
  - split; [reflexivity|discriminate].
  - destruct (JS.dropWhile JS.isDigit s) as [|c rest] eqn:Hdrop.
    + split; [reflexivity|discriminate].
    + destruct (c =? ch ".")%N eqn:Hc; split; try discriminate; try reflexivity.
      intros _. apply N.eqb_eq in Hc. subst c.
      exists (d :: ds), (JS.takeWhile JS.isSpace rest).
      split; [discriminate|]. split; [exact Hdigits|].
      split; [apply takeWhile_all|]. split; [|apply dropWhile_stops].
      rewrite <- Hs at 1. f_equal. change (js ".") with [ch "."]. cbn [app].
      f_equal. symmetry. apply takeWhile_dropWhile.
Qed.

Lemma ordinal_strip_agrees_with_test_witness :
  Re.stripOrdinal (js "2024 was a good year") = js "2024 was a good year".
Proof.
  exact (proj1 (ordinal_strip_agrees_with_test (js "2024 was a good year")) eq_refl).
Defined.

(** ** The formatter, line by line *)

Lemma split_app (a b : jsstring) :
  JS.split NL (a ++ NL :: b) = JS.split NL a ++ JS.split NL b.
Proof.
  induction a as [|c a IH]; [reflexivity|].
  cbn [app JS.split]. destruct (c =? NL)%N; [now rewrite IH|].
  rewrite IH. pose proof (split_not_nil NL a) as Hne.
  destruct (JS.split NL a); [contradiction|reflexivity].
Qed.

Lemma mapi_from_app (A B : Type) (f : A -> nat -> B) (l1 l2 : list A) (i : nat) :
  JS.mapi_from i f (l1 ++ l2)
  = JS.mapi_from i f l1 ++ JS.mapi_from (i + List.length l1) f l2.
Proof.
  revert i. induction l1 as [|x l1 IH]; intros i; simpl.
  - now rewrite Nat.add_0_r.
  - rewrite IH. now rewrite Nat.add_succ_r.
Qed.

Lemma mapi_from_nth (A B : Type) (f : A -> nat -> B) (l : list A) (k i : nat) (x : A) :
  nth_error l i = Some x ->
  nth_error (JS.mapi_from k f l) i = Some (f x (k + i)).
Proof.
  revert k i. induction l as [|y l IH]; intros k i; [now destruct i|].
  destruct i as [|i]; simpl.
  - intros H. injection H as ->. now rewrite Nat.add_0_r.
  - intros H. rewrite (IH (S k) i H). now rewrite Nat.add_succ_r.
Qed.

(** X17: formatBullets works on each line by itself. The entry at an index
    comes from the line at that index and from nothing else, so the blocks
    of two texts joined by a line break are the blocks of the first and
    then those of the second, with the keys counted on; the entry is null
    exactly for a blank line, and the key of a block is the index of its
    line. *)
Theorem blocks_come_line_by_line (a b : jsstring) :
  Page.formatBullets (a ++ NL :: b)
  = Page.formatBullets a
    ++ JS.mapi_from (List.length (JS.split NL a)) Page.formatLine (JS.split NL b)
  /\ (forall i line,
        nth_error (JS.split NL a) i = Some line ->
        nth_error (Page.formatBullets a) i = Some (Page.formatLine line i))
  /\ (forall line i,
        (Page.formatLine line i = None <-> JS.trim line = [])
        /\ forall block, Page.formatLine line i = Some block -> blockKey block = i).
Proof.
  split; [|split].
  - unfold Page.formatBullets, JS.mapi. rewrite split_app.
    now rewrite mapi_from_app.
  - intros i line Hline. unfold Page.formatBullets, JS.mapi.
    now rewrite (mapi_from_nth _ _ Page.formatLine _ 0 i line Hline).
  - intros line i. unfold Page.formatLine.
    destruct (JS.truthy (JS.trim line)) eqn:Hblank; cbn [negb].
    + apply truthy_true in Hblank. split.
      * destruct (_ || _); split; congruence.
      * intros block. destruct (_ || _); intros H; now injection H as <-.
    + apply truthy_false in Hblank. split; [now split|discriminate].
Qed.

Lemma blocks_come_line_by_line_witness :
  nth_error (Page.formatBullets (js "- a" ++ NL :: js "b")) 1
  = Some (Page.formatLine (js "b") 1).
Proof.
  exact (proj1 (proj2 (blocks_come_line_by_line (js "- a" ++ NL :: js "b") []))
           1 (js "b") eq_refl).
Defined.

(** ** The header lines of part_000 *)

Lemma hash_is_no_space (c : char) : JS.isSpace c = true -> (ch "#" =? c)%N = false.
Proof.
  intros H. destruct (ch "#" =? c)%N eqn:Heq; [|reflexivity].
  apply N.eqb_eq in Heq. subst c. discriminate H.
Qed.

Lemma dotPlus_plain (t : jsstring) :
  t <> [] -> noLineTerminator t = true -> Re.dotPlus t = Some t.
Proof.
  intros Hne Hlt. unfold Re.dotPlus.
  destruct (takeWhile_app_stop (fun c => negb (JS.isLineTerminator c)) t []
              Hlt eq_refl) as [Htake _].
  rewrite app_nil_r in Htake. rewrite Htake. now destruct t.
Qed.

Lemma spacesDotPlus_plain (ws t : jsstring) :
  forallb JS.isSpace ws = true ->
  t <> [] -> startsClean t = true -> noLineTerminator t = true ->
  Re.spacesDotPlus (ws ++ t) = Some t.
Proof.
  intros Hws Hne Hclean Hlt. induction ws as [|w ws IH].
  - destruct t as [|c t]; [contradiction|]. cbn [app Re.spacesDotPlus].
    cbn [startsClean] in Hclean. apply negb_true_iff in Hclean. rewrite Hclean.
    now apply dotPlus_plain.
  - cbn [forallb] in Hws. apply andb_true_iff in Hws as [Hw Hws].
    cbn [app Re.spacesDotPlus]. now rewrite Hw, (IH Hws).
Qed.

Lemma hashesThen_text (k : nat) (w : char) (ws t : jsstring) :
  JS.isSpace w = true -> forallb JS.isSpace ws = true ->
  t <> [] -> startsClean t = true -> noLineTerminator t = true ->
  Re.hashesThen k (repeat (ch "#") k ++ w :: ws ++ t) = Some t.
Proof.
  intros Hw Hws Hne Hclean Hlt. unfold Re.hashesThen.
  assert (Hstart : forall r, JS.startsWith (repeat (ch "#") k ++ r) (repeat (ch "#") k) = true).
  { intros r. induction k as [|k IH]; [reflexivity|].
    cbn [repeat app JS.startsWith]. now rewrite N.eqb_refl. }
  rewrite Hstart.
  assert (Hskip : skipn k (repeat (ch "#") k ++ w :: ws ++ t) = w :: ws ++ t).
  { rewrite <- (repeat_length (ch "#") k) at 1. apply skipn_exact. }
  rewrite Hskip, Hw. now apply spacesDotPlus_plain.
Qed.

Lemma hashesThen_short (j k : nat) (w : char) (r : jsstring) :
  k < j -> (ch "#" =? w)%N = false ->
  Re.hashesThen j (repeat (ch "#") k ++ w :: r) = None.
Proof.
  intros Hlt Hw. unfold Re.hashesThen.
  assert (Hstart : JS.startsWith (repeat (ch "#") k ++ w :: r) (repeat (ch "#") j) = false).
  { revert j Hlt. induction k as [|k IH]; intros j Hlt.
    - destruct j as [|j]; [lia|]. cbn [repeat app JS.startsWith]. now rewrite Hw.
    - destruct j as [|j]; [lia|]. cbn [repeat app JS.startsWith].
      rewrite N.eqb_refl. apply IH. lia. }
  now rewrite Hstart.
Qed.

Lemma hashesThen_long (j k : nat) (r : jsstring) :
  j < k -> Re.hashesThen j (repeat (ch "#") k ++ r) = None.
Proof.
  intros Hlt. unfold Re.hashesThen.
  destruct (JS.startsWith _ _); [|reflexivity].
  replace k with (j + S (k - S j)) by lia.
  rewrite repeat_app, <- app_assoc.
  rewrite <- (repeat_length (ch "#") j) at 1. rewrite skipn_exact.
  reflexivity.
Qed.

Lemma headerLine_text (k : nat) (w : char) (ws t : jsstring) :
  1 <= k <= 3 ->
  JS.isSpace w = true -> forallb JS.isSpace ws = true ->
  t <> [] -> startsClean t = true -> noLineTerminator t = true ->
  Re.headerLine (repeat (ch "#") k ++ w :: ws ++ t) = Some t.
Proof.
  intros Hk Hw Hws Hne Hclean Hlt. unfold Re.headerLine.
  pose proof (hash_is_no_space w Hw) as Hhash.
  pose proof (hashesThen_text k w ws t Hw Hws Hne Hclean Hlt) as Hk_ok.
  destruct k as [|[|[|[|k]]]]; try lia.
  - rewrite (hashesThen_short 3 1 w _ ltac:(lia) Hhash).
    rewrite (hashesThen_short 2 1 w _ ltac:(lia) Hhash). exact Hk_ok.
  - rewrite (hashesThen_short 3 2 w _ ltac:(lia) Hhash). now rewrite Hk_ok.
  - now rewrite Hk_ok.
Qed.

(** X18: part_000 takes a line for a header when it starts with one, two
    or three hashes, then white space, then text: the text is the heading.
    A line that starts with another code unit, a line of four or more
    hashes in a row, and hashes directly followed by text are body lines. *)
Theorem header_lines_have_up_to_three_hashes (k : nat) (w : char) (ws t r : jsstring) :
  (1 <= k <= 3 ->
   JS.isSpace w = true -> forallb JS.isSpace ws = true ->
   t <> [] -> startsClean t = true -> noLineTerminator t = true ->
   Re.headerLine (repeat (ch "#") k ++ w :: ws ++ t) = Some t)
  /\ (4 <= k -> Re.headerLine (repeat (ch "#") k ++ r) = None)
  /\ ((ch "#" =? w)%N = false -> JS.isSpace w = false ->
      Re.headerLine (repeat (ch "#") k ++ w :: r) = None)
  /\ Re.headerLine [] = None.
Proof.
  split; [|split; [|split; [|reflexivity]]].
  - apply headerLine_text.
  - intros Hk. unfold Re.headerLine.
    now rewrite !hashesThen_long by lia.
  - intros Hhash Hw. unfold Re.headerLine.
    assert (Hany : forall j, Re.hashesThen j (repeat (ch "#") k ++ w :: r) = None).
    { intros j. destruct (Nat.lt_trichotomy j k) as [Hlt|[->|Hgt]].
      - now apply hashesThen_long.
      - unfold Re.hashesThen. destruct (JS.startsWith _ _); [|reflexivity].
        rewrite <- (repeat_length (ch "#") k) at 1. rewrite skipn_exact.
        now rewrite Hw.
      - now apply hashesThen_short. }
    now rewrite !Hany.
Qed.

Lemma header_lines_have_up_to_three_hashes_witness :
  Re.headerLine (repeat (ch "#") 2 ++ ch " " :: [] ++ js "QUICK BRIEF")
  = Some (js "QUICK BRIEF")
  /\ Re.headerLine (repeat (ch "#") 4 ++ js " deep") = None.
Proof.
  split.
  - exact (proj1 (header_lines_have_up_to_three_hashes 2 (ch " ") []
                    (js "QUICK BRIEF") [])
             ltac:(lia) eq_refl eq_refl ltac:(discriminate) eq_refl eq_refl).
  - exact (proj1 (proj2 (header_lines_have_up_to_three_hashes 4 (ch " ") [] []
                           (js " deep")))
             ltac:(lia)).
Defined.

(** ** The reading time of part_000 *)


Lemma endsClean_suffix (l r : jsstring) :
  r <> [] -> endsClean (l ++ r) = endsClean r.
Proof.
  intros Hr. unfold endsClean. rewrite rev_app_distr.
  destruct (rev r) as [|x xs] eqn:Hrev; [|reflexivity].
  apply (f_equal (@rev char)) in Hrev. rewrite rev_involutive in Hrev.
  contradiction.
Qed.






(** ** One heading and its body *)

Lemma join_split (s : jsstring) : JS.join [NL] (JS.split NL s) = s.
Proof.
  induction s as [|c s IH]; [reflexivity|].
  cbn [JS.split]. pose proof (split_not_nil NL s) as Hne.
  destruct (c =? NL)%N eqn:Hc.
  - apply N.eqb_eq in Hc. subst c.
    destruct (JS.split NL s) as [|p ps]; [contradiction|].
    change (JS.join [NL] ([] :: p :: ps)) with (NL :: JS.join [NL] (p :: ps)).
    now rewrite IH.
  - destruct (JS.split NL s) as [|p ps]; [contradiction|].
    destruct ps as [|p2 ps].
    + change (JS.join [NL] [c :: p]) with (c :: JS.join [NL] [p]).
      now rewrite IH.
    + change (JS.join [NL] ((c :: p) :: p2 :: ps))
        with (c :: JS.join [NL] (p :: p2 :: ps)).
      now rewrite IH.
Qed.

Lemma split_noNewline (t : jsstring) : noNewline t = true -> JS.split NL t = [t].
Proof.
  induction t as [|c t IH]; [reflexivity|].
  cbn [noNewline forallb]. intros H. apply andb_true_iff in H as [Hc Ht].
  apply negb_true_iff in Hc. cbn [JS.split]. rewrite Hc.
  now rewrite (IH Ht).
Qed.

Lemma dropWhile_app_all (p : char -> bool) (l r : jsstring) :
  forallb p l = true -> JS.dropWhile p (l ++ r) = JS.dropWhile p r.
Proof.
  induction l as [|c l IH]; [reflexivity|].
  cbn [forallb app JS.dropWhile]. intros H.
  apply andb_true_iff in H as [Hc Hl]. rewrite Hc. now apply IH.
Qed.

(** [trim] gives the clean middle of a text between two runs of white
    space. *)
Lemma trim_unique (l u r : jsstring) :
  forallb JS.isSpace l = true -> forallb JS.isSpace r = true ->
  u <> [] -> startsClean u = true -> endsClean u = true ->
  JS.trim (l ++ u ++ r) = u.
Proof.
  intros Hl Hr Hne Hstart Hend. unfold JS.trim, JS.trimStart, JS.trimEnd.
  rewrite (dropWhile_app_all _ l _ Hl).
  assert (Hstart' : startsClean (u ++ r) = true)
    by (destruct u; [contradiction|exact Hstart]).
  rewrite (dropWhile_id JS.isSpace (u ++ r) Hstart').
  rewrite rev_app_distr, dropWhile_app_all by now rewrite forallb_rev.
  rewrite (dropWhile_id JS.isSpace (rev u) Hend). apply rev_involutive.
Qed.

(** A part made of a heading line and a body: its title and its content. *)
Lemma part_of_heading_and_body (t body : jsstring) :
  t <> [] -> startsClean t = true -> noNewline t = true ->
  JS.trim body <> [] ->
  partTitle (t ++ NL :: body) = titleOfLine t
  /\ partContent (t ++ NL :: body) = JS.trim body.
Proof.
  intros Hne Hstart Hnl Hbody.
  destruct (trim_split body) as (lb & rb & Hsplit & Hlb & Hrb).
  set (u := JS.trim body) in *.
  assert (Htrim : JS.trim (t ++ NL :: body) = t ++ NL :: lb ++ u).
  { rewrite Hsplit.
    replace (t ++ NL :: lb ++ u ++ rb) with ([] ++ (t ++ NL :: lb ++ u) ++ rb)
      by (cbn [app]; rewrite <- app_assoc; cbn [app];
          now rewrite <- app_assoc).
    apply trim_unique; [reflexivity|exact Hrb| | |].
    - destruct t; discriminate.
    - destruct t; [contradiction|exact Hstart].
    - change (t ++ NL :: lb ++ u) with (t ++ (NL :: lb) ++ u).
      rewrite app_assoc, endsClean_suffix by exact Hbody.
      apply trim_endsClean. }
  unfold partTitle, partContent, partLines, contentOfLines, JS.slice1.
  rewrite Htrim, split_app, (split_noNewline t Hnl). cbn [app hd tl].
  split; [reflexivity|]. rewrite join_split.
  rewrite <- (app_nil_r u) at 1. apply trim_unique;
    [exact Hlb|reflexivity|exact Hbody|apply trim_startsClean|apply trim_endsClean].
Qed.

Lemma noHash_app (a b : jsstring) : noHash (a ++ b) = noHash a && noHash b.
Proof. apply forallb_app. Qed.

(** X20: in the two revisions that split on the marker, a text made of one
    marker, a heading line and a body gives the body, trimmed, as the one
    candidate section. src/app/page.tsx returns it under the first key its
    heading contains, or nothing when there is none; part_001 returns it
    under the heading itself. *)
Theorem one_heading_gives_one_section
    (toUpperCase : jsstring -> jsstring) (ws t body : jsstring) :
  ws <> [] -> forallb JS.isSpace ws = true ->
  t <> [] -> startsClean t = true -> noNewline t = true ->
  noHash t = true -> noHash body = true ->
  JS.trim body <> [] ->
  Page.parseSections toUpperCase (js "###" ++ ws ++ t ++ NL :: body)
  = JS.Ok match findLabel toUpperCase Page.SECTION_CONFIG (titleOfLine t) with
          | Some (key, style) =>
              [mkSection key (JS.trim body) (style_icon style) (style_gradient style)]
          | None => []
          end
  /\ Part001.parseSections toUpperCase (js "###" ++ ws ++ t ++ NL :: body)
     = JS.Ok [Part001.mkSection (titleOfLine t) (JS.trim body)
                (Part001.iconFor toUpperCase (titleOfLine t))].
Proof.
  intros Hws_ne Hws Ht_ne Hstart Hnl Hhash_t Hhash_b Hbody.
  assert (Hsplit : Re.split Re.headingMarker (js "###" ++ ws ++ t ++ NL :: body)
                   = [[]; t ++ NL :: body]).
  { change (js "###" ++ ws ++ t ++ NL :: body)
      with ([] ++ js "###" ++ ws ++ t ++ NL :: body).
    rewrite (split_before_marker [] ws (t ++ NL :: body) eq_refl Hws_ne Hws).
    - f_equal. apply split_noHash. rewrite noHash_app, Hhash_t.
      cbn [noHash forallb andb negb]. exact Hhash_b.
    - destruct t as [|c t]; [contradiction|]. cbn [app startsWithSpace].
      cbn [startsClean] in Hstart. now apply negb_true_iff in Hstart. }
  destruct (part_of_heading_and_body t body Ht_ne Hstart Hnl Hbody)
    as [Htitle Hcontent].
  apply truthy_true in Hbody. split.
  - unfold Page.parseSections. rewrite page_parseSections_flat_map, Hsplit.
    cbn [flat_map]. rewrite app_nil_r.
    change (Page.contribution toUpperCase Page.SECTION_CONFIG []) with (@nil Section).
    cbn [app]. unfold Page.contribution.
    rewrite Htitle, Hcontent, Hbody.
    now destruct (findLabel toUpperCase Page.SECTION_CONFIG (titleOfLine t))
      as [[key style]|].
  - rewrite part001_parseSections_flat_map, Hsplit.
    cbn [flat_map]. rewrite app_nil_r.
    change (Part001.contribution toUpperCase []) with (@nil Part001.Section).
    cbn [app]. unfold Part001.contribution.
    now rewrite Htitle, Hcontent, Hbody.
Qed.

Lemma one_heading_gives_one_section_witness :
  Part001.parseSections JS.asciiUpper
    (js "###" ++ js " " ++ js "*Notes*" ++ NL :: js " hello ")
  = JS.Ok [Part001.mkSection (titleOfLine (js "*Notes*")) (JS.trim (js " hello "))
             (Part001.iconFor JS.asciiUpper (titleOfLine (js "*Notes*")))].
Proof.
  refine (proj2 (one_heading_gives_one_section JS.asciiUpper (js " ") (js "*Notes*")
                   (js " hello ") _ eq_refl _ eq_refl eq_refl eq_refl eq_refl _));
    vm_compute; discriminate.
Defined.

Lemma headerLine_noHash (line : jsstring) :
  noHash line = true -> Re.headerLine line = None.
Proof.
  destruct line as [|c line]; [reflexivity|].
  cbn [noHash forallb]. intros H. apply andb_true_iff in H as [Hc _].
  apply negb_true_iff in Hc. rewrite N.eqb_sym in Hc.
  assert (Hany : forall j, Re.hashesThen (S j) (c :: line) = None).
  { intros j. unfold Re.hashesThen. cbn [repeat JS.startsWith]. now rewrite Hc. }
  unfold Re.headerLine. now rewrite !Hany.
Qed.

Lemma split_pieces_noHash (s : jsstring) :
  noHash s = true -> Forall (fun line => noHash line = true) (JS.split NL s).
Proof.
  induction s as [|c s IH]; [repeat constructor|].
  cbn [noHash forallb]. intros H. apply andb_true_iff in H as [Hc Hs].
  specialize (IH Hs). cbn [JS.split].
  destruct (c =? NL)%N; [constructor; [reflexivity|exact IH]|].
  pose proof (split_not_nil NL s) as Hne.
  destruct (JS.split NL s) as [|p ps]; [contradiction|].
  apply Forall_cons_iff in IH as [Hp Hps].
  constructor; [|exact Hps]. cbn [noHash forallb]. now rewrite Hc.
Qed.

Lemma scan_body_lines (toUpperCase : jsstring -> jsstring) (table : LabelTable)
    (lines : list jsstring) :
  Forall (fun line => noHash line = true) lines ->
  forall st,
    fold_left (Part000.scanLine toUpperCase table) lines st
    = Part000.mkScan (Part000.sections st) (Part000.currentTitle st)
        (Part000.currentContent st ++ lines).
Proof.
  induction 1 as [|line lines Hline Hlines IH]; intros st.
  - cbn [fold_left]. rewrite app_nil_r. now destruct st.
  - cbn [fold_left]. rewrite IH. unfold Part000.scanLine.
    rewrite (headerLine_noHash line Hline).
    cbn [Part000.sections Part000.currentTitle Part000.currentContent].
    now rewrite <- app_assoc.
Qed.

Lemma noLineTerminator_noNewline (t : jsstring) :
  noLineTerminator t = true -> noNewline t = true.
Proof.
  unfold noLineTerminator, noNewline. apply forallb_weaken. intros c Hc.
  apply negb_true_iff in Hc. apply negb_true_iff.
  destruct (c =? NL)%N eqn:Heq; [|reflexivity].
  apply N.eqb_eq in Heq. subst c. discriminate Hc.
Qed.

(** X21: in part_000 a text made of one header line (one to three hashes,
    white space, the heading) and body lines without a hash gives the
    body, trimmed, under the first key its heading contains; it gives
    nothing when the heading contains no key. *)
Theorem one_header_gives_one_section
    (toUpperCase : jsstring -> jsstring) (k : nat) (w : char) (ws t body : jsstring) :
  1 <= k <= 3 ->
  JS.isSpace w = true -> forallb JS.isSpace ws = true -> noNewline (w :: ws) = true ->
  t <> [] -> startsClean t = true -> noLineTerminator t = true ->
  noHash body = true ->
  titleOfLine t <> [] -> JS.trim body <> [] ->
  Part000.parseSections toUpperCase (repeat (ch "#") k ++ (w :: ws ++ t) ++ NL :: body)
  = match findLabel toUpperCase Part000.SECTION_CONFIG (titleOfLine t) with
    | Some (key, style) =>
        [mkSection key (JS.trim body) (style_icon style) (style_gradient style)]
    | None => []
    end.
Proof.
  intros Hk Hw Hws Hnl_ws Ht_ne Hstart Hlt Hhash Htitle Hbody.
  assert (Hheader : noNewline (repeat (ch "#") k ++ w :: ws ++ t) = true).
  { unfold noNewline in *. rewrite forallb_app. apply andb_true_iff. split.
    - apply forallb_forall. intros c Hc. apply repeat_spec in Hc. now subst c.
    - change (w :: ws ++ t) with ((w :: ws) ++ t). rewrite forallb_app.
      apply andb_true_iff. split; [exact Hnl_ws|].
      apply (noLineTerminator_noNewline t Hlt). }
  unfold Part000.parseSections, Part000.parseSectionsWith.
  rewrite app_assoc, split_app.
  rewrite (split_noNewline _ Hheader). cbn [app fold_left].
  unfold Part000.scanLine at 2.
  rewrite (headerLine_text k w ws t Hk Hw Hws Ht_ne Hstart Hlt).
  rewrite (scan_body_lines toUpperCase _ _ (split_pieces_noHash body Hhash)).
  cbn [Part000.sections Part000.currentTitle Part000.currentContent app].
  change (Part000.pushCurrent toUpperCase Part000.SECTION_CONFIG
            (Part000.mkScan [] [] [])) with (@nil Section).
  unfold Part000.pushCurrent.
  cbn [Part000.sections Part000.currentTitle Part000.currentContent app].
  apply truthy_true in Htitle. rewrite Htitle, join_split.
  apply truthy_true in Hbody. rewrite Hbody.
  pose proof (split_not_nil NL body) as Hlines.
  destruct (JS.split NL body); [contradiction|]. cbn [List.length Nat.ltb Nat.leb andb].
  now destruct (findLabel toUpperCase Part000.SECTION_CONFIG (titleOfLine t))
    as [[key style]|].
Qed.

Lemma one_header_gives_one_section_witness :
  Part000.parseSections JS.asciiUpper
    (repeat (ch "#") 1 ++ (ch " " :: [] ++ js "Quick Brief") ++ NL :: js "fast")
  = match findLabel JS.asciiUpper Part000.SECTION_CONFIG (titleOfLine (js "Quick Brief")) with
    | Some (key, style) =>
        [mkSection key (JS.trim (js "fast")) (style_icon style) (style_gradient style)]
    | None => []
    end.
Proof.
  refine (one_header_gives_one_section JS.asciiUpper 1 (ch " ") [] (js "Quick Brief")
            (js "fast") _ eq_refl eq_refl eq_refl _ eq_refl eq_refl eq_refl _ _);
    try lia; vm_compute; discriminate.
Defined.
